(** * NYC taxi dashboard: the data pipeline of [app.py]

    A shallow embedding of [load_data] (sampling, cleaning, timestamp
    parsing, derived columns, zone join, payment labels), of the cache
    decorator around it, and of the sidebar filter and the two counting
    aggregations of the dashboard, followed by the properties of the
    specification that concern them.

    Tables are lists of rows in frame order.  A column keeps the
    nullability of its pandas dtype: float64 has NaN, datetime64 has NaT,
    object columns hold a string or a null; int64 columns have no null. *)

From Stdlib Require Import ZArith Lia.
From Stdlib Require Import Floats.SpecFloat.
From Stdlib Require OrderedTypeEx.
From stdpp Require Import base option list strings gmap sorting.

Local Open Scope Z_scope.

(** ** float64 cells

    IEEE binary64 as specified by the Standard Library's [SpecFloat]:
    signed zeros, infinities, one NaN, finite values [m * 2^e]. *)

Module Float64.
Definition prec : Z := 53.
Definition emax : Z := 1024.

Definition float : Type := spec_float.

Definition zero : float := S754_zero false.
Definition nan : float := S754_nan.

(** int64 -> float64, round to nearest even. *)
Definition of_Z (z : Z) : float := binary_normalize prec emax z 0 false.

Definition div (x y : float) : float := SFdiv prec emax x y.

Definition add (x y : float) : float := SFadd prec emax x y.

(** [x > y] and [x < y]; false as soon as one side is NaN. *)
Definition gt (x y : float) : bool := SFltb y x.
Definition lt (x y : float) : bool := SFltb x y.

(** [x <= y]; false as soon as one side is NaN. *)
Definition le (x y : float) : bool := SFleb x y.
End Float64.

Abbreviation float := Float64.float.

(** ** datetime64 cells

    A timestamp is the integer count of periods since 1970-01-01T00:00:00
    in the resolution of its column; [None] is NaT.  The counts are
    mathematical integers; the int64 range of the real column comes in
    where the code can leave it, at the difference of two timestamps
    ([datetime_sub]). *)

Inductive reso : Type := reso_s | reso_ms | reso_us | reso_ns.

Definition periods_per_second (r : reso) : Z :=
  match r with
  | reso_s => 1
  | reso_ms => 1000
  | reso_us => 1000000
  | reso_ns => 1000000000
  end.

Definition periods_per_day (r : reso) : Z := 86400 * periods_per_second r.

Definition datetime : Type := option Z.
Definition timedelta : Type := option Z.
Definition NaT : option Z := None.

Definition day_names : list string :=
  ["Monday"; "Tuesday"; "Wednesday"; "Thursday"; "Friday"; "Saturday"; "Sunday"].

Module dt.
(** Days since the epoch (the [.dt.date] of a timestamp), floor division. *)
Definition date (r : reso) (t : datetime) : option Z :=
  (λ v, v `div` periods_per_day r) <$> t.

(** [.dt.hour]; NaT gives a null. *)
Definition hour (r : reso) (t : datetime) : option Z :=
  (λ v, (v `div` (3600 * periods_per_second r)) `mod` 24) <$> t.

(** Weekday index, Monday = 0; 1970-01-01 was a Thursday. *)
Definition dayofweek (r : reso) (t : datetime) : option Z :=
  (λ v, (v `div` periods_per_day r + 3) `mod` 7) <$> t.

(** [.dt.day_name()]; NaT gives a null. *)
Definition day_name (r : reso) (t : datetime) : option string :=
  d ← dayofweek r t; day_names !! Z.to_nat d.

(** [.dt.total_seconds()] of a timedelta column (pandas 3): the whole
    seconds of the int64 count (floor division) plus the residual over
    the periods per second, in float64; NaT gives NaN.  This is what
    pandas 3 returns at microsecond resolution, the resolution of the
    columns of the Parquet file and of parsed strings; the other
    resolutions are given the same form. *)
Definition total_seconds (r : reso) (d : timedelta) : float :=
  match d with
  | Some v =>
      Float64.add
        (Float64.of_Z (v `div` periods_per_second r))
        (Float64.div (Float64.of_Z (v `mod` periods_per_second r))
                     (Float64.of_Z (periods_per_second r)))
  | None => Float64.nan
  end.
End dt.

(** Calendar constructor, used to name timestamps by their fields:
    days from the civil date, proleptic Gregorian calendar. *)
Definition days_from_civil (y m d : Z) : Z :=
  let y' := if m <=? 2 then y - 1 else y in
  let era := y' `div` 400 in
  let yoe := y' - era * 400 in
  let mp := (m + 9) `mod` 12 in
  let doy := (153 * mp + 2) `div` 5 + d - 1 in
  let doe := yoe * 365 + yoe `div` 4 - yoe `div` 100 + doy in
  era * 146097 + doe - 719468.

Definition Timestamp (r : reso) (y m d hh mm ss : Z) : datetime :=
  Some ((days_from_civil y m d * 86400 + hh * 3600 + mm * 60 + ss)
        * periods_per_second r).

(** A raw timestamp cell as fetched: already a datetime64 value (possibly
    NaT) or, in an object column, a string still to be parsed. *)
Inductive ts_cell : Type :=
  | TsValue (t : datetime)
  | TsString (s : string).

(** ** Rows

    [trip] is a row of the fetched projection; the types of the two
    timestamp columns and of the payment column change along the pipeline
    ([pd.to_datetime] column by column, then [Series.map]), so they are
    parameters. *)

Record trip (T1 T2 P : Type) : Type := Trip {
  tpep_pickup_datetime : T1;
  tpep_dropoff_datetime : T2;
  trip_distance : float;
  fare_amount : float;
  total_amount : float;
  payment_type : P;
  PULocationID : Z;
}.
Arguments Trip {T1 T2 P}.
Arguments tpep_pickup_datetime {T1 T2 P}.
Arguments tpep_dropoff_datetime {T1 T2 P}.
Arguments trip_distance {T1 T2 P}.
Arguments fare_amount {T1 T2 P}.
Arguments total_amount {T1 T2 P}.
Arguments payment_type {T1 T2 P}.
Arguments PULocationID {T1 T2 P}.

(** A row of [taxi_zone_lookup.csv]. *)
Module zones.
Record row : Type := Row {
  LocationID : Z;
  Borough : option string;
  Zone : option string;
  service_zone : option string;
}.
End zones.

(** A row once the three derived columns are assigned. *)
Record derived (P : Type) : Type := Derived {
  base : trip datetime datetime P;
  pickup_hour : option Z;
  pickup_day_of_week : option string;
  trip_duration_minutes : float;
}.
Arguments Derived {P}.
Arguments base {P}.
Arguments pickup_hour {P}.
Arguments pickup_day_of_week {P}.
Arguments trip_duration_minutes {P}.

(** A row of the joined frame: the left row and the four zone columns,
    null where the left key has no match. *)
Record merged (P : Type) : Type := Merged {
  left : derived P;
  LocationID : option Z;
  Borough : option string;
  Zone : option string;
  service_zone : option string;
}.
Arguments Merged {P}.
Arguments left {P}.
Arguments LocationID {P}.
Arguments Borough {P}.
Arguments Zone {P}.
Arguments service_zone {P}.

Abbreviation raw_trip := (trip ts_cell ts_cell Z).

(** The enriched table returned by [load_data]. *)
Abbreviation enriched := (merged (option string)).

Definition set_pickup {T1 T2 P T} (r : trip T1 T2 P) (t : T) : trip T T2 P :=
  Trip t (tpep_dropoff_datetime r) (trip_distance r) (fare_amount r)
       (total_amount r) (payment_type r) (PULocationID r).

Definition set_dropoff {T1 T2 P T} (r : trip T1 T2 P) (t : T) : trip T1 T P :=
  Trip (tpep_pickup_datetime r) t (trip_distance r) (fare_amount r)
       (total_amount r) (payment_type r) (PULocationID r).

(** A function applied to the payment column, the other columns kept. *)
Definition trip_map_payment {T1 T2 P Q} (f : P -> Q) (r : trip T1 T2 P) : trip T1 T2 Q :=
  Trip (tpep_pickup_datetime r) (tpep_dropoff_datetime r) (trip_distance r)
       (fare_amount r) (total_amount r) (f (payment_type r)) (PULocationID r).

Definition derived_map_payment {P Q} (f : P -> Q) (d : derived P) : derived Q :=
  Derived (trip_map_payment f (base d)) (pickup_hour d) (pickup_day_of_week d)
          (trip_duration_minutes d).

Definition merged_map_payment {P Q} (f : P -> Q) (r : merged P) : merged Q :=
  Merged (derived_map_payment f (left r))
         (LocationID r) (Borough r) (Zone r) (service_zone r).

(** The condition the two cleaning filters keep a row on. *)
Definition positive {T1 T2 P} (r : trip T1 T2 P) : Prop :=
  Float64.gt (trip_distance r) (Float64.of_Z 0) = true ∧
  Float64.gt (fare_amount r) (Float64.of_Z 0) = true.

(** The row a raw row becomes once both timestamp columns are parsed. *)
Definition parsed (r : raw_trip) (tp td : datetime) : trip datetime datetime Z :=
  set_dropoff (set_pickup r tp) td.

(** ** Errors *)

Inductive error : Type :=
  | ValueError       (* sample larger than the population *)
  | IndexError       (* positional take out of bounds *)
  | DateParseError   (* [pd.to_datetime] on an unparseable string *)
  | OverflowError.   (* a difference of timestamps that leaves int64 *)

Definition result (A : Type) : Type := error + A.

Definition Ok {A} (x : A) : result A := inr x.
Definition Err {A} (e : error) : result A := inl e.

Definition result_bind {A B} (m : result A) (f : A -> result B) : result B :=
  match m with
  | inr x => f x
  | inl e => inl e
  end.

(** The int64 range of the counts; the least int64 is the bit pattern of
    NaT. *)
Definition int64_min : Z := - 2 ^ 63.
Definition int64_max : Z := 2 ^ 63 - 1.

(** [a - b] on datetime cells, overflow-checked as pandas does: NaT on
    either side gives NaT; a difference outside int64 raises; a
    difference that is the least int64 reads as NaT. *)
Definition datetime_sub (a b : datetime) : result timedelta :=
  match a, b with
  | Some x, Some y =>
      if decide (int64_min ≤ x - y ≤ int64_max)
      then Ok (if decide (x - y = int64_min) then NaT else Some (x - y))
      else Err OverflowError
  | _, _ => Ok NaT
  end.

(** A whole column at once: the first failing cell fails the column. *)
Fixpoint traverse {A B} (f : A -> result B) (l : list A) : result (list B) :=
  match l with
  | [] => Ok []
  | x :: l' =>
      result_bind (f x) (λ y,
      result_bind (traverse f l') (λ ys, Ok (y :: ys)))
  end.

(** ** Process state and the monad of the pipeline

    Two pieces of process state matter to [load_data]: the global numpy
    generator (used by [DataFrame.sample] when no seed is passed) and the
    store of [st.cache_data].  A computation takes the state and returns a
    table or an error, with the state it leaves. *)

Record world (rng table : Type) : Type := World {
  np_random : rng;
  st_cache : option table;
}.
Arguments World {rng table}.
Arguments np_random {rng table}.
Arguments st_cache {rng table}.

Definition M (W A : Type) : Type := W -> result A * W.

Definition ret {W A} (x : A) : M W A := λ w, (Ok x, w).

Definition bind {W A B} (m : M W A) (f : A -> M W B) : M W B :=
  λ w, match m w with
       | (inr x, w') => f x w'
       | (inl e, w') => (inl e, w')
       end.

Definition lift {W A} (r : result A) : M W A := λ w, (r, w).

Notation "'let*' x := c 'in' k" := (bind c (λ x, k))
  (at level 10, x name, c at level 100, k at level 200).

(** ** The payment dictionary *)

Definition payment_map : gmap Z string :=
  {[ 1 := "Credit Card"; 2 := "Cash"; 3 := "No Charge"; 4 := "Dispute" ]}.

(** [Series.map(d)] on one cell: the value under the key, a null when the
    key is absent. *)
Definition Series_map (d : gmap Z string) (code : Z) : option string := d !! code.

Section Pipeline.
(** The legacy numpy generator, kept abstract: [RandomState seed] is a
    fresh generator, [permutation g n] the shuffled positions [0..n-1]
    and the generator after the draw.  [parse_datetime] is the string
    parser behind [pd.to_datetime] ([None] when it raises), [creso] the
    resolution of the datetime columns. *)
Context {rng : Type}.
Variable RandomState : Z -> rng.
Variable permutation : rng -> nat -> list nat * rng.
Variable parse_datetime : string -> option datetime.
Variable creso : reso.

Abbreviation W := (world rng (list enriched)).

(** [df.sample(n, random_state=...)]: without replacement, so a sample
    larger than the frame raises; the positions are the first [n] of a
    permutation drawn from a fresh seeded generator or, without a seed,
    from the global one; the rows are taken by position. *)
Definition sample {A} (n : N) (random_state : option Z) (df : list A) : M W (list A) :=
  λ w,
    if decide (N.of_nat (length df) < n)%N then (Err ValueError, w)
    else
      let '(perm, w') :=
        match random_state with
        | Some seed => ((permutation (RandomState seed) (length df)).1, w)
        | None =>
            let '(p, g) := permutation (np_random w) (length df) in
            (p, World g (st_cache w))
        end in
      match mapM (df !!.) (take (N.to_nat n) perm) with
      | Some rows => (Ok rows, w')
      | None => (Err IndexError, w')
      end.

(** [pd.to_datetime] on one cell, [errors="raise"]: a timestamp (the
    cell of a datetime64 column) is kept as it is, a string goes through
    [parse_datetime].  The parser is one function for every cell: the
    format pandas infers for a column of strings from its first string is
    not modelled, so what is proved about string cells is proved for a
    parser fixed beforehand. *)
Definition to_datetime (c : ts_cell) : result datetime :=
  match c with
  | TsValue t => Ok t
  | TsString s =>
      match parse_datetime s with
      | Some t => Ok t
      | None => Err DateParseError
      end
  end.

Definition parse_pickup {T2 P} (r : trip ts_cell T2 P) : result (trip datetime T2 P) :=
  result_bind (to_datetime (tpep_pickup_datetime r)) (λ t, Ok (set_pickup r t)).

Definition parse_dropoff {T1 P} (r : trip T1 ts_cell P) : result (trip T1 datetime P) :=
  result_bind (to_datetime (tpep_dropoff_datetime r)) (λ t, Ok (set_dropoff r t)).

(** The three derived columns of one row, for the difference [delta] of
    its two timestamps. *)
Definition derive {P} (r : trip datetime datetime P) (delta : timedelta) : derived P :=
  Derived r
    (dt.hour creso (tpep_pickup_datetime r))
    (dt.day_name creso (tpep_pickup_datetime r))
    (Float64.div (dt.total_seconds creso delta) (Float64.of_Z 60)).

(** Lines 39-44 on one row; the subtraction of line 43 can overflow. *)
Definition add_derived {P} (r : trip datetime datetime P) : result (derived P) :=
  result_bind (datetime_sub (tpep_dropoff_datetime r) (tpep_pickup_datetime r))
              (λ delta, Ok (derive r delta)).

(** [df.merge(zones, left_on="PULocationID", right_on="LocationID",
    how="left")]: left order is kept; a left row gives one output row per
    matching zone row, in zone order, and one row of nulls without a
    match. *)
Definition matches {P} (zs : list zones.row) (l : derived P) : list zones.row :=
  filter (λ z, zones.LocationID z = PULocationID (base l)) zs.

Definition merge_row {P} (zs : list zones.row) (l : derived P) : list (merged P) :=
  match matches zs l with
  | [] => [Merged l None None None None]
  | ms =>
      (λ z, Merged l (Some (zones.LocationID z)) (zones.Borough z)
                     (zones.Zone z) (zones.service_zone z)) <$> ms
  end.

Definition merge_left {P} (df : list (derived P)) (zs : list zones.row) : list (merged P) :=
  df ≫= merge_row zs.

(** Line 54 on one row. *)
Definition map_payment (r : merged Z) : enriched :=
  merged_map_payment (Series_map payment_map) r.

(** The two cleaning filters, lines 33-34. *)
Definition clean {T1 T2 P} (df : list (trip T1 T2 P)) : list (trip T1 T2 P) :=
  let df := filter (λ r, Float64.gt (trip_distance r) (Float64.of_Z 0)) df in
  filter (λ r, Float64.gt (fare_amount r) (Float64.of_Z 0)) df.

(** [load_data], lines 8-56, on the two fetched tables: [taxi] is what
    [pd.read_parquet] returned for the seven columns, [zone_csv] what
    [pd.read_csv] returned.  Fetching itself is outside the model. *)
Definition load_data (taxi : list raw_trip) (zone_csv : list zones.row) : M W (list enriched) :=
  let* df := sample 150000 (Some 42) taxi in
  let zones := zone_csv in
  let df := clean df in
  let* df := lift (traverse parse_pickup df) in
  let* df := lift (traverse parse_dropoff df) in
  let* df := lift (traverse add_derived df) in
  let df := merge_left df zones in
  let df := map_payment <$> df in
  ret df.

(** [@st.cache_data] on a function without arguments: one entry; a hit
    returns the stored table, a miss runs the function and stores what
    it returns; an exception stores nothing. *)
Definition cache_data (f : M W (list enriched)) : M W (list enriched) :=
  λ w,
    match st_cache w with
    | Some t => (Ok t, w)
    | None =>
        match f w with
        | (inr t, w') => (Ok t, World (np_random w') (Some t))
        | (inl e, w') => (Err e, w')
        end
    end.
End Pipeline.

Arguments sample {rng} RandomState permutation {A} n random_state df.
Arguments load_data {rng} RandomState permutation parse_datetime creso taxi zone_csv.
Arguments cache_data {rng} f.

(** ** The dashboard: sidebar filter and the two counting charts *)

(** Comparisons of a nullable cell with a bound: a null compares false. *)
Definition ge_null (x : option Z) (y : Z) : bool :=
  match x with Some v => y <=? v | None => false end.

Definition le_null (x : option Z) (y : Z) : bool :=
  match x with Some v => v <=? y | None => false end.

(** [Series.isin]: membership, a null cell matching a null value. *)
Definition isin (x : option string) (values : list (option string)) : bool :=
  bool_decide (x ∈ values).

(** The widget values: the two dates (as days since the epoch), the two
    hours, the selected payment labels. *)
Record sidebar : Type := Sidebar {
  date_range : Z * Z;
  hour_range : Z * Z;
  payment_types : list (option string);
}.

Definition row_selected (creso : reso) (sb : sidebar) (r : enriched) : bool :=
  let b := base (left r) in
  ge_null (dt.date creso (tpep_pickup_datetime b)) (date_range sb).1 &&
  le_null (dt.date creso (tpep_pickup_datetime b)) (date_range sb).2 &&
  ge_null (pickup_hour (left r)) (hour_range sb).1 &&
  le_null (pickup_hour (left r)) (hour_range sb).2 &&
  isin (payment_type b) (payment_types sb).

(** Lines 92-98. *)
Definition filtered_df (creso : reso) (sb : sidebar) (df : list enriched) : list enriched :=
  filter (λ r, row_selected creso sb r) df.

(** One more row under key [k] in a count table kept sorted by key. *)
Fixpoint count_insert (k : string) (l : list (string * nat)) : list (string * nat) :=
  match l with
  | [] => [(k, 1%nat)]
  | (k', n) :: l' =>
      match String.compare k k' with
      | Eq => (k', S n) :: l'
      | Lt => (k, 1%nat) :: (k', n) :: l'
      | Gt => (k', n) :: count_insert k l'
      end
  end.

(** [df.groupby(key).size().reset_index(name=...)]: one line per distinct
    key in key order with its number of rows; rows with a null key belong
    to no group ([dropna=True] is the default). *)
Definition groupby_size {A} (key : A -> option string) (df : list A) : list (string * nat) :=
  foldr (λ r acc, match key r with
                  | Some k => count_insert k acc
                  | None => acc
                  end) [] df.

(** One more occurrence of [k] in a count table kept in order of first
    appearance. *)
Fixpoint count_add (k : string) (l : list (string * nat)) : list (string * nat) :=
  match l with
  | [] => [(k, 1%nat)]
  | (k', n) :: l' =>
      if decide (k = k') then (k', S n) :: l' else (k', n) :: count_add k l'
  end.

Definition by_count_desc (a b : string * nat) : Prop := (b.2 ≤ a.2)%nat.

Global Instance by_count_desc_dec a b : Decision (by_count_desc a b).
Proof. unfold by_count_desc. apply _. Defined.

(** [sort_values(count, ascending=False)], as a stable merge sort on the
    counts; the order pandas leaves among equal counts is not modelled,
    and nothing below depends on it. *)
Definition sort_values_desc (l : list (string * nat)) : list (string * nat) :=
  merge_sort by_count_desc l.

(** [Series.value_counts().reset_index()]: occurrences of each non-null
    value ([dropna=True] is the default), most frequent first. *)
Definition value_counts {A} (key : A -> option string) (df : list A) : list (string * nat) :=
  sort_values_desc
    (foldl (λ acc r, match key r with
                     | Some k => count_add k acc
                     | None => acc
                     end) [] df).

(** Lines 124-130. *)
Definition zone_counts (filtered : list enriched) : list (string * nat) :=
  take 10 (sort_values_desc (groupby_size Zone filtered)).

(** Lines 208-210. *)
Definition payment_counts (filtered : list enriched) : list (string * nat) :=
  sort_values_desc (value_counts (λ r, payment_type (base (left r))) filtered).

(** The rows of a view that have a zone name, and those that have a
    payment label. *)
Definition zoned (df : list enriched) : list enriched :=
  filter (λ r, is_Some (Zone r)) df.

Definition labelled (df : list enriched) : list enriched :=
  filter (λ r, is_Some (payment_type (base (left r)))) df.

(** Sum of the count column. *)
Definition total (counts : list (string * nat)) : nat := sum_list (snd <$> counts).

(** ** The rest of the dashboard *)

(** [Series.unique()]: the distinct values in order of first appearance;
    a null is a value like another and is kept once. *)
Fixpoint unique_from {A} `{EqDecision A} (seen l : list A) : list A :=
  match l with
  | [] => []
  | x :: l' =>
      if decide (x ∈ seen) then unique_from seen l'
      else x :: unique_from (x :: seen) l'
  end.

Definition unique {A} `{EqDecision A} (l : list A) : list A := unique_from [] l.

(** Lines 85-89: what the payment multiselect offers, and selects by
    default. *)
Definition payment_options (df : list enriched) : list (option string) :=
  unique ((λ r, payment_type (base (left r))) <$> df).

(** The sidebar as it opens, for the two dates the date input shows:
    every hour and every payment option selected. *)
Definition default_sidebar (dates : Z * Z) (df : list enriched) : sidebar :=
  Sidebar dates (0, 23) (payment_options df).

(** Counting by a key of any ordered type: [count_insert] for a comparison
    function [cmp]. *)
Fixpoint count_insert_by {K} (cmp : K -> K -> comparison) (k : K)
    (l : list (K * nat)) : list (K * nat) :=
  match l with
  | [] => [(k, 1%nat)]
  | (k', n) :: l' =>
      match cmp k k' with
      | Eq => (k', S n) :: l'
      | Lt => (k, 1%nat) :: (k', n) :: l'
      | Gt => (k', n) :: count_insert_by cmp k l'
      end
  end.

Definition groupby_size_by {A K} (cmp : K -> K -> comparison)
    (key : A -> option K) (df : list A) : list (K * nat) :=
  foldr (λ r acc, match key r with
                  | Some k => count_insert_by cmp k acc
                  | None => acc
                  end) [] df.

(** The key of [groupby(["pickup_day_of_week", "pickup_hour"])]: a row
    with a null in either column is in no group; groups come in the order
    of the day name, then of the hour. *)
Definition day_hour_key (r : enriched) : option (string * Z) :=
  d ← pickup_day_of_week (left r); h ← pickup_hour (left r); Some (d, h).

Definition day_hour_compare (a b : string * Z) : comparison :=
  match String.compare a.1 b.1 with
  | Eq => Z.compare a.2 b.2
  | c => c
  end.

(** Lines 143-145. *)
Definition heatmap_data (filtered : list enriched) : list ((string * Z) * nat) :=
  groupby_size_by day_hour_compare day_hour_key filtered.

(** Sum of the count column of a table with keys of any type. *)
Definition sum_counts {K} (counts : list (K * nat)) : nat := sum_list (snd <$> counts).

(** The float literal [0.1]: the binary64 nearest to one tenth. *)
Definition tenth : float := Float64.div (Float64.of_Z 1) (Float64.of_Z 10).

(** Lines 165-167. *)
Definition distance_view (filtered : list enriched) : list enriched :=
  filter (λ r, Float64.gt (trip_distance (base (left r))) tenth &&
               Float64.le (trip_distance (base (left r))) (Float64.of_Z 30))
         filtered.

(** What makes a generator a generator of permutations: a draw for [m]
    positions is an arrangement of [0..m-1]. *)
Definition shuffles {rng} (permutation : rng -> nat -> list nat * rng) : Prop :=
  ∀ g m, (permutation g m).1 ≡ₚ seq 0 m.

(** The number a count table gives for key [k]. *)
Definition count_of {K} `{EqDecision K} (k : K) (counts : list (K * nat)) : nat :=
  sum_list (snd <$> filter (λ e, e.1 = k) counts).

(** What the counting needs of a comparison function. *)
Record comparison_laws {K} (cmp : K -> K -> comparison) : Prop := {
  cmp_eq : ∀ a b, cmp a b = Eq -> a = b;
  cmp_antisym : ∀ a b, cmp a b = CompOpp (cmp b a);
  cmp_trans : ∀ a b c, cmp a b = Lt -> cmp b c = Lt -> cmp a c = Lt;
}.

(** The order of the lines of a count table kept sorted by key. *)
Definition key_lt {K} (cmp : K -> K -> comparison) (a b : K * nat) : Prop :=
  cmp a.1 b.1 = Lt.

(** The cells a heat map of weekdays and hours can have. *)
Definition day_hour_cells : list (string * Z) :=
  d ← day_names; h ← seqZ 0 24; [(d, h)].

(** The payment labels. *)
Definition payment_labels : list (option string) :=
  [Some "Credit Card"; Some "Cash"; Some "No Charge"; Some "Dispute"].

(** Line 107, the number behind "Total Trips". *)
Definition total_trips (filtered : list enriched) : nat := length filtered.

(** ** A small world for closed examples

    A toy generator whose state is a counter: a draw from an even state
    is the identity order, a draw from an odd state the reverse order; a
    string parser that knows no format; frames of 150,000 equal rows. *)

Module toy.
Definition RandomState (seed : Z) : nat := Z.to_nat seed.

Definition permutation (g : nat) (n : nat) : list nat * nat :=
  (if Nat.even g then seq 0 n else reverse (seq 0 n), S g).

Definition parse_datetime (s : string) : option datetime := None.

Definition w0 : world nat (list enriched) := World 0%nat None.
Definition w1 : world nat (list enriched) := World 1%nat None.

Abbreviation load_data := (load_data RandomState permutation parse_datetime reso_us).
Abbreviation sample := (sample RandomState permutation).

Definition frame {A} (x : A) : list A := replicate (N.to_nat 150000) x.

Definition t0800 : datetime := Timestamp reso_us 2024 1 15 8 0 0.
Definition t0817 : datetime := Timestamp reso_us 2024 1 15 8 17 30.
Definition t0830 : datetime := Timestamp reso_us 2024 1 15 8 30 0.
(** 08:00:00.000050, fifty microseconds after [t0800]. *)
Definition t0800_50us : datetime := (λ t, t + 50) <$> t0800.

Definition trip0 (pickup dropoff : ts_cell) (miles code pu : Z) : raw_trip :=
  Trip pickup dropoff (Float64.of_Z miles) (Float64.of_Z 20) (Float64.of_Z 25) code pu.

(** A ride of 17.5 minutes from zone 161, paid by card. *)
Definition ride : raw_trip := trip0 (TsValue t0800) (TsValue t0817) 3 1 161.
(** The same ride with the two timestamps exchanged. *)
Definition inverted : raw_trip := trip0 (TsValue t0817) (TsValue t0800) 3 1 161.
(** A ride that ends fifty microseconds before it starts. *)
Definition blink : raw_trip := trip0 (TsValue t0800_50us) (TsValue t0800) 3 1 161.
(** A ride without pickup time. *)
Definition untimed : raw_trip := trip0 (TsValue NaT) (TsValue t0817) 3 1 161.
(** A record of zero miles whose pickup field is not a date. *)
Definition garbled : raw_trip := trip0 (TsString "not a date") (TsValue t0817) 0 1 161.
(** A positive ride whose pickup field is not a date. *)
Definition unparsed : raw_trip := trip0 (TsString "not a date") (TsValue t0817) 3 1 161.
(** A ride from an unlisted zone with payment code 0. *)
Definition unlisted : raw_trip := trip0 (TsValue t0830) (TsValue t0830) 3 0 999.

Definition zone161 : zones.row :=
  zones.Row 161 (Some "Manhattan") (Some "Midtown Center") (Some "Yellow Zone").

(** The row [load_data] makes of a row of timestamps [tp], [td] joined
    with zone 161, and of one without a zone. *)
Definition delta (td tp : datetime) : timedelta :=
  match datetime_sub td tp with inr d => d | inl _ => NaT end.

Definition derived_of (x : raw_trip) (tp td : datetime) : derived Z :=
  derive reso_us (parsed x tp td) (delta td tp).

Definition in_zone161 (x : raw_trip) (tp td : datetime) : enriched :=
  map_payment (Merged (derived_of x tp td) (Some 161)
                 (Some "Manhattan") (Some "Midtown Center") (Some "Yellow Zone")).

Definition no_zone (x : raw_trip) (tp td : datetime) : enriched :=
  map_payment (Merged (derived_of x tp td) None None None None).

Definition ride_out : enriched := in_zone161 ride t0800 t0817.
Definition inverted_out : enriched := in_zone161 inverted t0817 t0800.
Definition blink_out : enriched := in_zone161 blink t0800_50us t0800.
Definition untimed_out : enriched := in_zone161 untimed NaT t0817.
Definition unlisted_out : enriched := no_zone unlisted t0830 t0830.
Definition unlisted_derived : derived Z := derived_of unlisted t0830 t0830.

(** What the join with a zone table listing location 161 twice makes of a
    frame of rides. *)
Definition doubled : list enriched :=
  map_payment <$>
  merge_left (frame (derived_of ride t0800 t0817)) [zone161; zone161].

(** Everything selected: 15 January 2024, all hours, the null label. *)
Definition sidebar_null : sidebar :=
  Sidebar (days_from_civil 2024 1 15, days_from_civil 2024 1 15) (0, 23) [None].

(** The same day and hours, only the card label selected. *)
Definition sidebar_card : sidebar :=
  Sidebar (days_from_civil 2024 1 15, days_from_civil 2024 1 15) (0, 23)
          [Some "Credit Card"].

(** A view of three rows: two rides from zone 161, one from nowhere. *)
Definition small_view : list enriched := [ride_out; ride_out; unlisted_out].

(** The state after a first cached load of a frame of rides. *)
Definition w_cached : world nat (list enriched) := World 0%nat (Some (frame ride_out)).

(** Codes rewritten at the source: 5 for 0. *)
Definition five_for_zero (c : Z) : Z := if decide (c = 0) then 5 else c.
End toy.

(** * Properties *)

(** ** Calendar fields *)

Lemma periods_per_second_pos r : 0 < periods_per_second r.
Proof. destruct r; reflexivity. Qed.

Lemma hour_in_range r t h : dt.hour r (Some t) = Some h -> 0 ≤ h ≤ 23.
Proof.
  intros [= <-].
  pose proof (Z.mod_pos_bound (t `div` (3600 * periods_per_second r)) 24). lia.
Qed.

Lemma hour_NaT r : dt.hour r NaT = None.
Proof. reflexivity. Qed.

Lemma day_name_NaT r : dt.day_name r NaT = None.
Proof. reflexivity. Qed.

Lemma day_name_Some r t : ∃ name, dt.day_name r (Some t) = Some name ∧ name ∈ day_names.
Proof.
  unfold dt.day_name, dt.dayofweek. simpl.
  set (d := (t `div` periods_per_day r + 3) `mod` 7).
  assert (0 ≤ d < 7) as Hd by (apply Z.mod_pos_bound; lia).
  destruct (day_names !! Z.to_nat d) as [name|] eqn:Hn.
  - exists name. split; [done|]. eapply list_elem_of_lookup_2, Hn.
  - apply lookup_ge_None in Hn. simpl in Hn. lia.
Qed.

(** The hour read back from a timestamp is the hour it was built with. *)
Lemma hour_Timestamp r y m d hh mm ss :
  0 ≤ hh < 24 -> 0 ≤ mm < 60 -> 0 ≤ ss < 60 ->
  dt.hour r (Timestamp r y m d hh mm ss) = Some hh.
Proof.
  intros Hh Hm Hs. unfold dt.hour, Timestamp. simpl. f_equal.
  pose proof (periods_per_second_pos r) as Hp.
  rewrite Z.div_mul_cancel_r by lia.
  set (D := days_from_civil y m d).
  replace (D * 86400 + hh * 3600 + mm * 60 + ss)
    with ((D * 24 + hh) * 3600 + (mm * 60 + ss)) by lia.
  rewrite Z.div_add_l by lia.
  rewrite (Z.div_small (mm * 60 + ss)) by lia.
  rewrite Z.add_0_r, Z.add_comm, Z.mod_add by lia.
  apply Z.mod_small. lia.
Qed.

(** ** float64 of an integer *)

(** Adding a zero to the float64 of a non-negative integer changes
    nothing. *)
Lemma SFadd_of_nonneg_zero k :
  0 ≤ k ->
  SFadd 53 1024 (binary_normalize 53 1024 k 0 false) (S754_zero false)
  = binary_normalize 53 1024 k 0 false.
Proof.
  intros Hk. destruct k as [|q|q]; [reflexivity| |lia].
  unfold binary_normalize, binary_round.
  destruct (shl_align _ _ _) as [mz ez].
  unfold binary_round_aux.
  destruct (shr_fexp _ _ _ _ _) as [mrs' e'].
  destruct (shr_fexp _ _ _ _ _) as [mrs'' e''].
  destruct (shr_m mrs''); [reflexivity| |reflexivity].
  destruct (Z.leb _ _); reflexivity.
Qed.

(** ** Columns that can fail *)

Section traverse_facts.
Context {A B : Type} (f : A -> result B).

Lemma traverse_cons_inr x l ys :
  traverse f (x :: l) = inr ys ->
  ∃ y ys', ys = y :: ys' ∧ f x = inr y ∧ traverse f l = inr ys'.
Proof.
  simpl. destruct (f x) as [e|y]; simpl; [discriminate|].
  destruct (traverse f l) as [e|ys']; simpl; [discriminate|].
  intros [= <-]. eauto.
Qed.

Lemma traverse_inr_Forall2 l ys :
  traverse f l = inr ys -> Forall2 (λ x y, f x = inr y) l ys.
Proof.
  revert ys. induction l as [|x l IH]; intros ys H.
  - injection H as <-. constructor.
  - apply traverse_cons_inr in H as (y & ys' & -> & Hx & Hl).
    constructor; auto.
Qed.

Lemma traverse_Forall2_inr l ys :
  Forall2 (λ x y, f x = inr y) l ys -> traverse f l = inr ys.
Proof.
  induction 1 as [|x y l ys Hx _ IH]; [reflexivity|].
  simpl. rewrite Hx. simpl. rewrite IH. reflexivity.
Qed.

Lemma traverse_length l ys : traverse f l = inr ys -> length ys = length l.
Proof. intros H. symmetry. eapply Forall2_length, traverse_inr_Forall2, H. Qed.

(** A failing column fails at one of its cells, with that cell's error. *)
Lemma traverse_inl_elem l e :
  traverse f l = inl e -> ∃ x, x ∈ l ∧ f x = inl e.
Proof.
  induction l as [|x l IH]; simpl; [discriminate|].
  destruct (f x) as [e'|y] eqn:Hx; simpl.
  - intros [= <-]. exists x. split; [left|done].
  - destruct (traverse f l) as [e'|ys]; simpl; [|discriminate].
    intros [= <-]. destruct IH as (x' & Hin & Hx'); [done|].
    exists x'. split; [by right|done].
Qed.

(** One failing cell is enough to fail the column. *)
Lemma traverse_elem_inl l x e :
  x ∈ l -> f x = inl e -> ∃ e', traverse f l = inl e'.
Proof.
  intros Hin Hx. destruct (traverse f l) as [e'|ys] eqn:Hl; [eauto|].
  apply traverse_inr_Forall2 in Hl.
  apply list_elem_of_lookup in Hin as [i Hi].
  destruct (Forall2_lookup_l _ _ _ _ _ Hl Hi) as (y & _ & Hy). congruence.
Qed.

Lemma traverse_replicate n x y :
  f x = inr y -> traverse f (replicate n x) = inr (replicate n y).
Proof.
  intros Hx. induction n as [|n IH]; [reflexivity|].
  simpl. rewrite Hx. simpl. rewrite IH. reflexivity.
Qed.
End traverse_facts.

(** ** The keys of the payment dictionary *)

(** The dictionary is one-to-one on its keys: a label is the label of one
    code only, one of 1, 2, 3 and 4; every other code gives a null. *)
Lemma Series_map_payment_unmapped c :
  c ≠ 1 -> c ≠ 2 -> c ≠ 3 -> c ≠ 4 -> Series_map payment_map c = None.
Proof.
  intros. unfold Series_map, payment_map.
  by rewrite !lookup_insert_ne, lookup_singleton_ne.
Qed.

Lemma Series_map_payment_key c :
  Series_map payment_map c ≠ None -> c = 1 ∨ c = 2 ∨ c = 3 ∨ c = 4.
Proof.
  intros Hne.
  destruct (decide (c = 1)); [tauto|]. destruct (decide (c = 2)); [tauto|].
  destruct (decide (c = 3)); [tauto|]. destruct (decide (c = 4)); [tauto|].
  destruct Hne. by apply Series_map_payment_unmapped.
Qed.

Lemma Series_map_payment_inj c c' :
  Series_map payment_map c = Series_map payment_map c' ->
  Series_map payment_map c ≠ None ->
  c = c' ∧ 1 ≤ c ≤ 4.
Proof.
  intros Heq Hne.
  assert (Series_map payment_map c' ≠ None) as Hne' by (by rewrite <- Heq).
  apply Series_map_payment_key in Hne as [->|[->|[->| ->]]];
    apply Series_map_payment_key in Hne' as [->|[->|[->| ->]]];
    first [ by split; [reflexivity|lia] | by vm_compute in Heq ].
Qed.

(** ** The stages of [load_data] *)

Section Pipeline_facts.
Context {rng : Type}.
Variable RandomState : Z -> rng.
Variable permutation : rng -> nat -> list nat * rng.
Variable parse_datetime : string -> option datetime.
Variable creso : reso.

Abbreviation W := (world rng (list enriched)).
Abbreviation sample' := (sample RandomState permutation).
Abbreviation load_data' := (load_data RandomState permutation parse_datetime creso).
Abbreviation parse_pickup' := (parse_pickup parse_datetime).
Abbreviation parse_dropoff' := (parse_dropoff parse_datetime).

(** A sample that succeeds has at most [n] rows, all of them rows of
    the frame. *)
Lemma sample_inr {A} n rs (df rows : list A) (w w' : W) :
  sample' n rs df w = (inr rows, w') ->
  (N.of_nat (length rows) ≤ n)%N ∧ ∀ r, r ∈ rows -> r ∈ df.
Proof.
  unfold sample. case_decide as Hn; [discriminate|].
  set (pw := match rs with Some _ => _ | None => _ end).
  destruct pw as [perm w1].
  destruct (mapM _ _) as [rows'|] eqn:Hm; [|discriminate].
  intros [= -> ->]. apply mapM_Some in Hm. split.
  - apply Forall2_length in Hm. rewrite <- Hm, length_take. lia.
  - intros r Hr. apply list_elem_of_lookup in Hr as [i Hi].
    destruct (Forall2_lookup_r _ _ _ _ _ Hm Hi) as (j & _ & Hj).
    eapply list_elem_of_lookup_2, Hj.
Qed.

(** With a seed the draw neither reads nor moves the process state. *)
Lemma sample_seeded {A} n seed (df : list A) (w w0 : W) :
  sample' n (Some seed) df w = ((sample' n (Some seed) df w0).1, w).
Proof.
  unfold sample. case_decide; [reflexivity|].
  destruct (mapM _ _); reflexivity.
Qed.

Lemma load_data_unfold taxi zs (w : W) :
  load_data' taxi zs w =
  match sample' 150000 (Some 42) taxi w with
  | (inr s, w') =>
      match traverse parse_pickup' (clean s) with
      | inr d1 =>
          match traverse parse_dropoff' d1 with
          | inr d2 =>
              match traverse (add_derived creso) d2 with
              | inr d3 => (inr (map_payment <$> merge_left d3 zs), w')
              | inl e => (inl e, w')
              end
          | inl e => (inl e, w')
          end
      | inl e => (inl e, w')
      end
  | (inl e, w') => (inl e, w')
  end.
Proof.
  unfold load_data, bind, lift, ret.
  destruct (sample _ _ _ _ _ w) as [[e|s] w']; [reflexivity|].
  destruct (traverse _ (clean s)) as [e|d1]; [reflexivity|].
  destruct (traverse _ d1) as [e|d2]; [reflexivity|].
  destruct (traverse _ d2) as [e|d3]; reflexivity.
Qed.

(** What a successful load went through. *)
Lemma load_data_inv taxi zs (w w' : W) out :
  load_data' taxi zs w = (inr out, w') ->
  ∃ s d1 d2 d3,
    sample' 150000 (Some 42) taxi w = (inr s, w') ∧
    traverse parse_pickup' (clean s) = inr d1 ∧
    traverse parse_dropoff' d1 = inr d2 ∧
    traverse (add_derived creso) d2 = inr d3 ∧
    out = map_payment <$> merge_left d3 zs.
Proof.
  rewrite load_data_unfold.
  destruct (sample _ _ _ _ _ w) as [[e|s] w1]; [discriminate|].
  destruct (traverse _ (clean s)) as [e|d1] eqn:H1; [discriminate|].
  destruct (traverse _ d1) as [e|d2] eqn:H2; [discriminate|].
  destruct (traverse _ d2) as [e|d3] eqn:H3; [discriminate|].
  intros [= <- <-]. eauto 10.
Qed.

(** *** Cleaning *)

Lemma elem_of_clean {T1 T2 P} (df : list (trip T1 T2 P)) r :
  r ∈ clean df ↔ r ∈ df ∧ positive r.
Proof.
  unfold clean, positive. rewrite !list_elem_of_filter, !Is_true_true. tauto.
Qed.

Lemma clean_length {T1 T2 P} (df : list (trip T1 T2 P)) :
  (length (clean df) ≤ length df)%nat.
Proof. unfold clean. etrans; apply length_filter. Qed.

Lemma clean_length_lt {T1 T2 P} (df : list (trip T1 T2 P)) r :
  r ∈ df -> ¬ positive r -> (length (clean df) < length df)%nat.
Proof.
  intros Hin Hneg. unfold clean.
  set (P1 := λ x : trip T1 T2 P, Is_true (Float64.gt (trip_distance x) (Float64.of_Z 0))).
  set (P2 := λ x : trip T1 T2 P, Is_true (Float64.gt (fare_amount x) (Float64.of_Z 0))).
  destruct (decide (P1 r)) as [Hd|Hd].
  - apply Nat.lt_le_trans with (length (filter P1 df)); [|apply length_filter].
    apply (length_filter_lt P2 _ r).
    + apply list_elem_of_filter. split; [exact Hd|exact Hin].
    + intros Hf. apply Hneg. split; by apply Is_true_true.
  - apply Nat.le_lt_trans with (length (filter P1 df)); [apply length_filter|].
    by apply (length_filter_lt P1 _ r).
Qed.

(** *** Parsing keeps every other column *)

Lemma parse_pickup_inr {T2 P} (r : trip ts_cell T2 P) r' :
  parse_pickup' r = inr r' ->
  ∃ t, to_datetime parse_datetime (tpep_pickup_datetime r) = inr t ∧ r' = set_pickup r t.
Proof.
  unfold parse_pickup. destruct (to_datetime _ _) as [e|t]; simpl; [discriminate|].
  intros [= <-]. eauto.
Qed.

Lemma parse_dropoff_inr {T1 P} (r : trip T1 ts_cell P) r' :
  parse_dropoff' r = inr r' ->
  ∃ t, to_datetime parse_datetime (tpep_dropoff_datetime r) = inr t ∧ r' = set_dropoff r t.
Proof.
  unfold parse_dropoff. destruct (to_datetime _ _) as [e|t]; simpl; [discriminate|].
  intros [= <-]. eauto.
Qed.

Lemma to_datetime_error c e :
  to_datetime parse_datetime c = inl e -> e = DateParseError.
Proof.
  destruct c as [t|s]; simpl; [discriminate|].
  destruct (parse_datetime s); [discriminate|]. by intros [= <-].
Qed.

Lemma parse_both_elem (s : list raw_trip) d1 d2 :
  traverse parse_pickup' s = inr d1 ->
  traverse parse_dropoff' d1 = inr d2 ->
  Forall2 (λ r r', ∃ tp td,
             to_datetime parse_datetime (tpep_pickup_datetime r) = inr tp ∧
             to_datetime parse_datetime (tpep_dropoff_datetime r) = inr td ∧
             r' = parsed r tp td) s d2.
Proof.
  intros H1%traverse_inr_Forall2 H2%traverse_inr_Forall2.
  revert d2 H2. induction H1 as [|r r1 s d1 Hr _ IH]; intros d2 H2.
  - inversion H2. constructor.
  - inversion H2 as [|? r2 ? d2' Hr2 H2']; subst. constructor; [|by apply IH].
    apply parse_pickup_inr in Hr as (tp & Hp & ->).
    apply parse_dropoff_inr in Hr2 as (td & Hd & ->).
    exists tp, td. auto.
Qed.

Lemma add_derived_inr {P} (r : trip datetime datetime P) d :
  add_derived creso r = inr d ->
  ∃ delta,
    datetime_sub (tpep_dropoff_datetime r) (tpep_pickup_datetime r) = inr delta ∧
    d = derive creso r delta.
Proof.
  unfold add_derived. destruct (datetime_sub _ _) as [e|delta]; simpl; [discriminate|].
  intros [= <-]. eauto.
Qed.

(** What the rows are once the derived columns are assigned. *)
Lemma derived_rows (s : list raw_trip) d1 d2 d3 :
  traverse parse_pickup' s = inr d1 ->
  traverse parse_dropoff' d1 = inr d2 ->
  traverse (add_derived creso) d2 = inr d3 ->
  Forall2 (λ r d, ∃ tp td delta,
             to_datetime parse_datetime (tpep_pickup_datetime r) = inr tp ∧
             to_datetime parse_datetime (tpep_dropoff_datetime r) = inr td ∧
             datetime_sub td tp = inr delta ∧
             d = derive creso (parsed r tp td) delta) s d3.
Proof.
  intros H1 H2 H3%traverse_inr_Forall2.
  eapply Forall2_trans; [|exact (parse_both_elem _ _ _ H1 H2)|exact H3].
  simpl. intros r p d (tp & td & Htp & Htd & ->) (delta & Hsub & ->)%add_derived_inr.
  exists tp, td, delta. split_and!; done.
Qed.

(** *** The join *)

Lemma merge_row_left {P} zs (l : derived P) m :
  m ∈ merge_row zs l -> left m = l.
Proof.
  unfold merge_row. destruct (matches zs l) as [|z ms].
  - by intros ->%list_elem_of_singleton.
  - intros (z' & -> & _)%list_elem_of_fmap. reflexivity.
Qed.

Lemma merge_row_nonempty {P} zs (l : derived P) : ∃ m, m ∈ merge_row zs l.
Proof.
  unfold merge_row. destruct (matches zs l) as [|z ms].
  - eexists. by left.
  - eexists. simpl. by left.
Qed.

Lemma merge_row_unmatched {P} zs (l : derived P) :
  (∀ z, z ∈ zs -> zones.LocationID z ≠ PULocationID (base l)) ->
  merge_row zs l = [Merged l None None None None].
Proof.
  intros Hno. unfold merge_row.
  destruct (matches zs l) as [|z ms] eqn:Hm; [reflexivity|].
  assert (z ∈ matches zs l) as Hz by (rewrite Hm; left).
  apply list_elem_of_filter in Hz as [Heq Hz]. by apply Hno in Hz.
Qed.

(** Where a row of the loaded table comes from. *)
Lemma load_data_origin taxi zs (w w' : W) out s :
  load_data' taxi zs w = (inr out, w') ->
  sample' 150000 (Some 42) taxi w = (inr s, w') ->
  ∀ r, r ∈ out ->
    ∃ r0 tp td delta m,
      r0 ∈ clean s ∧
      to_datetime parse_datetime (tpep_pickup_datetime r0) = inr tp ∧
      to_datetime parse_datetime (tpep_dropoff_datetime r0) = inr td ∧
      datetime_sub td tp = inr delta ∧
      m ∈ merge_row zs (derive creso (parsed r0 tp td) delta) ∧
      r = map_payment m.
Proof.
  intros (s' & d1 & d2 & d3 & Hs & H1 & H2 & H3 & ->)%load_data_inv Hs' r Hr.
  rewrite Hs in Hs'. injection Hs' as <-.
  apply list_elem_of_fmap in Hr as (m & -> & Hm).
  unfold merge_left in Hm. apply list_elem_of_bind in Hm as (l & Hm & Hl).
  pose proof (derived_rows _ _ _ _ H1 H2 H3) as HF.
  apply list_elem_of_lookup in Hl as [i Hi].
  destruct (Forall2_lookup_r _ _ _ _ _ HF Hi)
    as (r0 & Hr0 & tp & td & delta & Htp & Htd & Hsub & ->).
  exists r0, tp, td, delta, m. split_and!; try done.
  eapply list_elem_of_lookup_2, Hr0.
Qed.

Lemma load_data_sampled taxi zs (w w' : W) out :
  load_data' taxi zs w = (inr out, w') ->
  ∃ s, sample' 150000 (Some 42) taxi w = (inr s, w').
Proof. intros (s & _ & _ & _ & Hs & _)%load_data_inv. eauto. Qed.

(** Every cleaned sample row reaches the loaded table. *)
Lemma load_data_complete taxi zs (w w' : W) out s :
  load_data' taxi zs w = (inr out, w') ->
  sample' 150000 (Some 42) taxi w = (inr s, w') ->
  ∀ r0, r0 ∈ clean s ->
    ∃ tp td delta m,
      to_datetime parse_datetime (tpep_pickup_datetime r0) = inr tp ∧
      to_datetime parse_datetime (tpep_dropoff_datetime r0) = inr td ∧
      datetime_sub td tp = inr delta ∧
      m ∈ merge_row zs (derive creso (parsed r0 tp td) delta) ∧
      map_payment m ∈ out.
Proof.
  intros (s' & d1 & d2 & d3 & Hs & H1 & H2 & H3 & ->)%load_data_inv Hs' r0 Hr0.
  rewrite Hs in Hs'. injection Hs' as <-.
  pose proof (derived_rows _ _ _ _ H1 H2 H3) as HF.
  apply list_elem_of_lookup in Hr0 as [i Hi].
  destruct (Forall2_lookup_l _ _ _ _ _ HF Hi)
    as (p & Hp & tp & td & delta & Htp & Htd & Hsub & ->).
  destruct (merge_row_nonempty zs (derive creso (parsed r0 tp td) delta)) as [m Hm].
  exists tp, td, delta, m. split_and!; try done.
  apply list_elem_of_fmap_2. unfold merge_left. apply list_elem_of_bind.
  eexists. split; [exact Hm|].
  eapply list_elem_of_lookup_2, Hp.
Qed.

(** With unique zone ids the join keeps the number of rows. *)
Lemma matches_NoDup {P} zs (l : derived P) :
  NoDup (zones.LocationID <$> zs) -> (length (matches zs l) ≤ 1)%nat.
Proof.
  unfold matches. induction zs as [|z zs IH]; [simpl; lia|].
  rewrite fmap_cons, NoDup_cons. intros [Hz Hnd]. rewrite filter_cons.
  case_decide as Heq; [|by apply IH].
  destruct (filter _ zs) as [|z' ms] eqn:Hf; [simpl; lia|].
  exfalso. apply Hz.
  assert (z' ∈ filter (λ z, zones.LocationID z = PULocationID (base l)) zs) as Hz'
    by (rewrite Hf; left).
  apply list_elem_of_filter in Hz' as [Heq' Hin].
  apply list_elem_of_fmap. exists z'. split; [congruence|done].
Qed.

Lemma merge_row_length {P} zs (l : derived P) :
  NoDup (zones.LocationID <$> zs) -> length (merge_row zs l) = 1%nat.
Proof.
  intros Hnd%(matches_NoDup zs l). unfold merge_row.
  destruct (matches zs l) as [|z [|z' ms]]; simpl in *; [done|done|lia].
Qed.

Lemma merge_left_length {P} (df : list (derived P)) zs :
  NoDup (zones.LocationID <$> zs) -> length (merge_left df zs) = length df.
Proof.
  intros Hnd. unfold merge_left. induction df as [|l df IH]; [done|].
  rewrite bind_cons, length_app, IH, merge_row_length by done. done.
Qed.

Lemma parse_pickup_error {T2 P} (r : trip ts_cell T2 P) e :
  parse_pickup' r = inl e ->
  e = DateParseError ∧ to_datetime parse_datetime (tpep_pickup_datetime r) = inl e.
Proof.
  unfold parse_pickup.
  destruct (to_datetime _ _) as [e'|t] eqn:Ht; simpl; [|discriminate].
  intros [= <-]. split; [|done]. by eapply to_datetime_error.
Qed.

Lemma parse_dropoff_error {T1 P} (r : trip T1 ts_cell P) e :
  parse_dropoff' r = inl e ->
  e = DateParseError ∧ to_datetime parse_datetime (tpep_dropoff_datetime r) = inl e.
Proof.
  unfold parse_dropoff.
  destruct (to_datetime _ _) as [e'|t] eqn:Ht; simpl; [|discriminate].
  intros [= <-]. split; [|done]. by eapply to_datetime_error.
Qed.

(** [load_data] leaves the process state as it found it. *)
Lemma load_data_world taxi zs (w : W) : (load_data' taxi zs w).2 = w.
Proof.
  rewrite load_data_unfold, (sample_seeded _ _ _ w w).
  destruct (sample _ _ _ _ _ w) as [[e|s] w3]; simpl; [done|].
  destruct (traverse _ (clean s)) as [e|d1]; [done|].
  destruct (traverse _ d1) as [e|d2]; [done|].
  destruct (traverse _ d2); done.
Qed.

(** The table does not depend on the process state. *)
Lemma load_data_state_independent taxi zs (w1 w2 : W) :
  (load_data' taxi zs w1).1 = (load_data' taxi zs w2).1.
Proof.
  rewrite !load_data_unfold.
  rewrite (sample_seeded _ _ _ w1 w2).
  destruct (sample _ _ _ _ _ w2) as [[e|s] w3]; simpl; [done|].
  destruct (traverse _ (clean s)) as [e|d1]; [done|].
  destruct (traverse _ d1) as [e|d2]; [done|].
  destruct (traverse _ d2); done.
Qed.

(** *** The specification's properties of [load_data] *)

(** C1. Every row of the table returned by [load_data] has
    [trip_distance > 0] and [fare_amount > 0]; a sampled row that violates
    either condition does not survive cleaning. *)
Theorem load_data_positive taxi zs (w w' : W) out s :
  load_data' taxi zs w = (inr out, w') ->
  sample' 150000 (Some 42) taxi w = (inr s, w') ->
  (∀ r, r ∈ out -> positive (base (left r))) ∧
  (∀ r0, r0 ∈ s -> ¬ positive r0 -> r0 ∉ clean s).
Proof.
  intros Hload Hs. split.
  - intros r Hr.
    destruct (load_data_origin _ _ _ _ _ _ Hload Hs r Hr)
      as (r0 & tp & td & delta & m & Hr0 & _ & _ & _ & Hm & ->).
    apply merge_row_left in Hm. apply elem_of_clean in Hr0 as [_ Hpos].
    unfold positive in *. simpl. rewrite Hm. exact Hpos.
  - intros r0 _ Hneg Hin. apply elem_of_clean in Hin as [_ Hpos]. by apply Hneg.
Qed.

(** C3. In every row of the loaded table [trip_duration_minutes] is the
    difference dropoff - pickup expressed in seconds, divided by 60, in
    IEEE binary64 arithmetic (the operations are the Standard Library's,
    at precision 53): at microsecond resolution, the whole seconds of the
    difference plus its residual microseconds over 1000000, the sum
    divided by 60; at any resolution, for a difference of [k] whole
    seconds, the float64 of [k] (plus a zero residual) divided by 60, and
    simply the float64 of [k] divided by 60 when [k] is not negative; it
    is NaN when a timestamp is NaT.  (A difference equal to the least
    int64, the bit pattern of NaT, is left aside.)  Nothing bounds the
    value: no row is dropped on account of its timestamps, every cleaned
    sample row is in the table with the pickup and dropoff it was parsed
    to, in whatever order they are. *)
Theorem trip_duration_minutes_formula taxi zs (w w' : W) out s :
  load_data' taxi zs w = (inr out, w') ->
  sample' 150000 (Some 42) taxi w = (inr s, w') ->
  (∀ r, r ∈ out ->
     (tpep_pickup_datetime (base (left r)) = NaT ∨
      tpep_dropoff_datetime (base (left r)) = NaT ->
      trip_duration_minutes (left r) = S754_nan) ∧
     (∀ p d,
        creso = reso_us ->
        tpep_pickup_datetime (base (left r)) = Some p ->
        tpep_dropoff_datetime (base (left r)) = Some d ->
        d - p ≠ int64_min ->
        trip_duration_minutes (left r) =
        SFdiv 53 1024
          (SFadd 53 1024
             (binary_normalize 53 1024 ((d - p) `div` 1000000) 0 false)
             (SFdiv 53 1024
                (binary_normalize 53 1024 ((d - p) `mod` 1000000) 0 false)
                (binary_normalize 53 1024 1000000 0 false)))
          (binary_normalize 53 1024 60 0 false)) ∧
     (∀ p d k,
        tpep_pickup_datetime (base (left r)) = Some p ->
        tpep_dropoff_datetime (base (left r)) = Some d ->
        d - p = k * periods_per_second creso ->
        d - p ≠ int64_min ->
        trip_duration_minutes (left r) =
        SFdiv 53 1024
          (SFadd 53 1024 (binary_normalize 53 1024 k 0 false) (S754_zero false))
          (binary_normalize 53 1024 60 0 false) ∧
        (0 ≤ k ->
         trip_duration_minutes (left r) =
         SFdiv 53 1024 (binary_normalize 53 1024 k 0 false)
                       (binary_normalize 53 1024 60 0 false)))) ∧
  (∀ r0, r0 ∈ clean s ->
     ∃ r, r ∈ out ∧
       to_datetime parse_datetime (tpep_pickup_datetime r0)
         = inr (tpep_pickup_datetime (base (left r))) ∧
       to_datetime parse_datetime (tpep_dropoff_datetime r0)
         = inr (tpep_dropoff_datetime (base (left r)))).
Proof.
  intros Hload Hs. split.
  - intros r Hr.
    destruct (load_data_origin _ _ _ _ _ _ Hload Hs r Hr)
      as (r0 & tp & td & delta & m & _ & _ & _ & Hsub & Hm & ->).
    apply merge_row_left in Hm.
    assert (∀ p d, tp = Some p -> td = Some d -> d - p ≠ int64_min ->
                   delta = Some (d - p)) as Hdelta.
    { intros p d -> -> Hne. unfold datetime_sub in Hsub.
      destruct (decide (int64_min ≤ d - p ≤ int64_max)); [|discriminate Hsub].
      rewrite decide_False in Hsub by exact Hne. by injection Hsub. }
    cbn. rewrite Hm. cbn. split_and!.
    + intros Hnat.
      assert (delta = NaT) as ->; [|reflexivity].
      unfold datetime_sub in Hsub.
      destruct Hnat as [->| ->]; [destruct td|]; by injection Hsub.
    + intros p d Hres Hp Hd Hne. rewrite (Hdelta p d Hp Hd Hne), Hres. reflexivity.
    + intros p d k Hp Hd Hk Hne. rewrite (Hdelta p d Hp Hd Hne), Hk.
      pose proof (periods_per_second_pos creso) as Hpps.
      assert (trip_duration_minutes
                (derive creso (parsed r0 tp td) (Some (k * periods_per_second creso)))
              = SFdiv 53 1024
                  (SFadd 53 1024 (binary_normalize 53 1024 k 0 false) (S754_zero false))
                  (binary_normalize 53 1024 60 0 false)) as Hwhole.
      { cbn. unfold dt.total_seconds.
        rewrite Z.div_mul, Z.mod_mul by lia.
        unfold Float64.add, Float64.div, Float64.of_Z, Float64.prec, Float64.emax.
        do 2 f_equal. by destruct creso. }
      split; [exact Hwhole|].
      intros Hk0. cbn in Hwhole. cbn. rewrite Hwhole.
      f_equal. by apply SFadd_of_nonneg_zero.
  - intros r0 Hr0.
    destruct (load_data_complete _ _ _ _ _ _ Hload Hs r0 Hr0)
      as (tp & td & delta & m & Htp & Htd & _ & Hm & Hout).
    exists (map_payment m). split; [done|].
    apply merge_row_left in Hm. simpl. rewrite Hm. simpl. done.
Qed.

(** C6. The location id is the unique key of the zone table (no two rows
    share one); then the loaded table has at most 150,000 rows and at
    most, in fact exactly, as many rows as the sample has after cleaning,
    which is at most the size of the sample and strictly less as soon as
    one sampled row is dropped. *)
Theorem load_data_row_count taxi zs (w w' : W) out s :
  NoDup (zones.LocationID <$> zs) ->
  load_data' taxi zs w = (inr out, w') ->
  sample' 150000 (Some 42) taxi w = (inr s, w') ->
  (N.of_nat (length out) ≤ 150000)%N ∧
  length out = length (clean s) ∧
  (length (clean s) ≤ length s)%nat ∧
  (∀ r0, r0 ∈ s -> ¬ positive r0 -> (length out < length s)%nat).
Proof.
  intros Hnd (s' & d1 & d2 & d3 & Hs & H1 & H2 & H3 & ->)%load_data_inv Hs'.
  rewrite Hs in Hs'. injection Hs' as <-.
  apply sample_inr in Hs as [Hn _].
  apply traverse_length in H1, H2, H3.
  assert (length (map_payment <$> merge_left d3 zs) = length (clean s')) as Hlen.
  { rewrite length_fmap, merge_left_length by done. congruence. }
  pose proof (clean_length s') as Hle.
  rewrite Hlen. split_and!; [lia|done|done|].
  intros r0 Hin Hneg. by eapply clean_length_lt.
Qed.

(** C7, as amended. In every row of the loaded table [pickup_hour] and
    [pickup_day_of_week] are the hour and the weekday name of the parsed
    pickup timestamp; when that timestamp is not NaT the hour is an
    integer in [0,23], equal to the hour field the timestamp was written
    with, and the name is one of the seven weekday names; when it is NaT
    both are null. *)
Theorem pickup_hour_and_day taxi zs (w w' : W) out s r :
  load_data' taxi zs w = (inr out, w') ->
  sample' 150000 (Some 42) taxi w = (inr s, w') ->
  r ∈ out ->
  pickup_hour (left r) = dt.hour creso (tpep_pickup_datetime (base (left r))) ∧
  pickup_day_of_week (left r)
    = dt.day_name creso (tpep_pickup_datetime (base (left r))) ∧
  (∀ t, tpep_pickup_datetime (base (left r)) = Some t ->
     (∃ h, pickup_hour (left r) = Some h ∧ 0 ≤ h ≤ 23) ∧
     (∃ name, pickup_day_of_week (left r) = Some name ∧ name ∈ day_names)) ∧
  (∀ y m d hh mm ss,
     0 ≤ hh < 24 -> 0 ≤ mm < 60 -> 0 ≤ ss < 60 ->
     tpep_pickup_datetime (base (left r)) = Timestamp creso y m d hh mm ss ->
     pickup_hour (left r) = Some hh) ∧
  (tpep_pickup_datetime (base (left r)) = NaT ->
   pickup_hour (left r) = None ∧ pickup_day_of_week (left r) = None).
Proof.
  intros Hload Hs Hr.
  destruct (load_data_origin _ _ _ _ _ _ Hload Hs r Hr)
    as (r0 & tp & td & delta & m & _ & _ & _ & _ & Hm & ->).
  apply merge_row_left in Hm. simpl. rewrite Hm. simpl.
  split_and!; [done|done| | |].
  - intros t ->. split.
    + eexists. split; [done|]. by eapply hour_in_range.
    + apply day_name_Some.
  - intros y mo d hh mm ss Hh Hmi Hss ->. by apply hour_Timestamp.
  - by intros ->.
Qed.

(** C8. The sample, the table (or the error) and the state left behind do
    not depend on the process state [load_data] starts from, in particular
    not on the global generator: two invocations on the same fetched data
    give the same sampled rows and the same table; and through the cache a
    second call returns what the first returned. *)
Theorem load_data_deterministic taxi zs (w1 w2 : W) :
  (sample' 150000 (Some 42) taxi w1).1 = (sample' 150000 (Some 42) taxi w2).1 ∧
  (load_data' taxi zs w1).1 = (load_data' taxi zs w2).1 ∧
  (load_data' taxi zs w1).2 = w1 ∧
  (cache_data (load_data' taxi zs) (cache_data (load_data' taxi zs) w1).2).1
    = (cache_data (load_data' taxi zs) w1).1.
Proof.
  split_and!.
  - by rewrite (sample_seeded _ _ _ w1 w2).
  - apply load_data_state_independent.
  - apply load_data_world.
  - unfold cache_data. destruct (st_cache w1) as [t|] eqn:Hc; simpl.
    + by rewrite Hc.
    + pose proof (load_data_world taxi zs w1) as Hw.
      destruct (load_data' taxi zs w1) as [[e|t] w3] eqn:Hl; simpl in *.
      * subst w3. by rewrite Hc, Hl.
      * done.
Qed.

(** C9, as amended. If a pickup or dropoff field of a sampled row that
    passes the two cleaning filters cannot be parsed, [load_data] fails
    with the parse error and returns no table, and the cache stores
    nothing. *)
Theorem load_data_unparseable taxi zs (w w' : W) s r0 :
  sample' 150000 (Some 42) taxi w = (inr s, w') ->
  r0 ∈ clean s ->
  to_datetime parse_datetime (tpep_pickup_datetime r0) = Err DateParseError ∨
  to_datetime parse_datetime (tpep_dropoff_datetime r0) = Err DateParseError ->
  load_data' taxi zs w = (Err DateParseError, w') ∧
  (st_cache w = None ->
   cache_data (load_data' taxi zs) w = (Err DateParseError, w')).
Proof.
  intros Hs Hin Hbad.
  assert (load_data' taxi zs w = (Err DateParseError, w')) as Hload.
  { rewrite load_data_unfold, Hs.
    destruct (traverse parse_pickup' (clean s)) as [e|d1] eqn:H1.
    - apply traverse_inl_elem in H1 as (x & _ & [-> _]%parse_pickup_error). done.
    - destruct (traverse parse_dropoff' d1) as [e|d2] eqn:H2.
      + apply traverse_inl_elem in H2 as (x & _ & [-> _]%parse_dropoff_error). done.
      + exfalso.
        pose proof (parse_both_elem _ _ _ H1 H2) as HF.
        apply list_elem_of_lookup in Hin as [i Hi].
        destruct (Forall2_lookup_l _ _ _ _ _ HF Hi)
          as (p & _ & tp & td & Htp & Htd & _).
        unfold Err in Hbad. destruct Hbad; congruence. }
  split; [done|].
  intros Hc. unfold cache_data. by rewrite Hc, Hload.
Qed.

(** *** Payment codes rewritten at the source

    [trip_map_payment f] rewrites the payment codes of the fetched frame;
    each stage of the pipeline commutes with it. *)

Lemma mapM_lookup_fmap {A B} (g : A -> B) (df : list A) (idx : list nat) :
  mapM ((g <$> df) !!.) idx = fmap g <$> mapM (df !!.) idx.
Proof.
  induction idx as [|i idx IH]; [done|].
  simpl. rewrite list_lookup_fmap, IH.
  destruct (df !! i); simpl; [|done].
  destruct (mapM (λ i0, df !! i0) idx); reflexivity.
Qed.

Lemma sample_fmap {A B} (g : A -> B) n rs (df : list A) (w : W) :
  sample' n rs (g <$> df) w =
  match sample' n rs df w with
  | (inr rows, w') => (inr (g <$> rows), w')
  | (inl e, w') => (inl e, w')
  end.
Proof.
  unfold sample. rewrite length_fmap. case_decide; [done|].
  set (pw := match rs with Some _ => _ | None => _ end).
  destruct pw as [perm w1]. rewrite mapM_lookup_fmap.
  by destruct (mapM _ _).
Qed.

Lemma clean_fmap {T1 T2 P Q} (f : P -> Q) (df : list (trip T1 T2 P)) :
  clean (trip_map_payment f <$> df) = trip_map_payment f <$> clean df.
Proof.
  unfold clean. induction df as [|r df IH]; [done|].
  rewrite fmap_cons, !filter_cons. simpl.
  case_decide; [|exact IH].
  rewrite !filter_cons. simpl. case_decide; [|exact IH].
  rewrite fmap_cons. f_equal. exact IH.
Qed.

Lemma traverse_fmap {A A' B B'} (F : A -> result B) (F' : A' -> result B')
    (g : A -> A') (g' : B -> B') l :
  (∀ x, F' (g x) = match F x with inr y => inr (g' y) | inl e => inl e end) ->
  traverse F' (g <$> l) =
  match traverse F l with inr ys => inr (g' <$> ys) | inl e => inl e end.
Proof.
  intros HF. induction l as [|x l IH]; [done|].
  rewrite fmap_cons. simpl. rewrite HF, IH.
  destruct (F x); simpl; [done|]. by destruct (traverse F l).
Qed.

Lemma parse_pickup_map_payment {T2 P Q} (f : P -> Q) (r : trip ts_cell T2 P) :
  parse_pickup' (trip_map_payment f r) =
  match parse_pickup' r with
  | inr y => inr (trip_map_payment f y)
  | inl e => inl e
  end.
Proof. unfold parse_pickup. simpl. by destruct (to_datetime _ _). Qed.

Lemma parse_dropoff_map_payment {T1 P Q} (f : P -> Q) (r : trip T1 ts_cell P) :
  parse_dropoff' (trip_map_payment f r) =
  match parse_dropoff' r with
  | inr y => inr (trip_map_payment f y)
  | inl e => inl e
  end.
Proof. unfold parse_dropoff. simpl. by destruct (to_datetime _ _). Qed.

Lemma merge_row_map_payment {P Q} (f : P -> Q) zs (l : derived P) :
  merge_row zs (derived_map_payment f l) = merged_map_payment f <$> merge_row zs l.
Proof.
  unfold merge_row, matches.
  cbn [derived_map_payment base PULocationID trip_map_payment].
  destruct (filter _ zs) as [|z ms]; [done|].
  generalize (z :: ms). intros k.
  induction k as [|a k IH]; [done|].
  rewrite !fmap_cons. f_equal. exact IH.
Qed.

Lemma merge_left_map_payment {P Q} (f : P -> Q) zs (df : list (derived P)) :
  merge_left (derived_map_payment f <$> df) zs = merged_map_payment f <$> merge_left df zs.
Proof.
  unfold merge_left. induction df as [|l df IH]; [done|].
  rewrite fmap_cons, !bind_cons, fmap_app, IH, merge_row_map_payment. done.
Qed.

Lemma map_payment_recode (f : Z -> Z) (m : merged Z) :
  (∀ c, Series_map payment_map (f c) = Series_map payment_map c) ->
  map_payment (merged_map_payment f m) = map_payment m.
Proof.
  intros Hf. unfold map_payment, merged_map_payment, derived_map_payment,
    trip_map_payment. simpl. by rewrite Hf.
Qed.

Lemma add_derived_map_payment {P Q} (f : P -> Q) (r : trip datetime datetime P) :
  add_derived creso (trip_map_payment f r) =
  match add_derived creso r with
  | inr d => inr (derived_map_payment f d)
  | inl e => inl e
  end.
Proof.
  unfold add_derived. cbn [trip_map_payment tpep_dropoff_datetime tpep_pickup_datetime].
  by destruct (datetime_sub _ _).
Qed.

Lemma load_data_recode (f : Z -> Z) taxi zs (w : W) :
  (∀ c, Series_map payment_map (f c) = Series_map payment_map c) ->
  load_data' (trip_map_payment f <$> taxi) zs w = load_data' taxi zs w.
Proof.
  intros Hf. rewrite !load_data_unfold, sample_fmap.
  destruct (sample _ _ _ _ _ w) as [[e|s] w']; [done|].
  rewrite clean_fmap.
  rewrite (traverse_fmap parse_pickup' parse_pickup' _ (trip_map_payment f))
    by apply parse_pickup_map_payment.
  destruct (traverse _ (clean s)) as [e|d1]; [done|].
  rewrite (traverse_fmap parse_dropoff' parse_dropoff' _ (trip_map_payment f))
    by apply parse_dropoff_map_payment.
  destruct (traverse _ d1) as [e|d2]; [done|].
  rewrite (traverse_fmap (add_derived creso) (add_derived creso) _
             (derived_map_payment f))
    by apply add_derived_map_payment.
  destruct (traverse _ d2) as [e|d3]; [done|].
  do 2 f_equal.
  rewrite merge_left_map_payment, <- list_fmap_compose.
  apply list_fmap_ext. intros _ m _. by apply map_payment_recode.
Qed.

(** C10, as amended. In the loaded table the payment column holds only
    the four labels or a null, never a code; the codes other than 1, 2, 3
    and 4 cannot be read back from the table: rewriting the fetched codes
    by any [f] that the dictionary does not tell apart (sending 0 to 5,
    say) loads the very same table; the codes 1, 2, 3 and 4 can: a label
    of the table is the label of one code only. *)
Theorem payment_type_labels taxi zs (w w' : W) out :
  load_data' taxi zs w = (inr out, w') ->
  (∀ r, r ∈ out ->
     payment_type (base (left r)) ∈
       [Some "Credit Card"; Some "Cash"; Some "No Charge"; Some "Dispute"; None]) ∧
  (∀ f : Z -> Z,
     (∀ c, Series_map payment_map (f c) = Series_map payment_map c) ->
     load_data' (trip_map_payment f <$> taxi) zs w = (inr out, w')) ∧
  (∀ r c c', r ∈ out ->
     payment_type (base (left r)) ≠ None ->
     Series_map payment_map c = payment_type (base (left r)) ->
     Series_map payment_map c' = payment_type (base (left r)) ->
     c = c' ∧ 1 ≤ c ≤ 4).
Proof.
  intros Hload. split_and!; [| |intros r c c' _ Hne Hc Hc';
    apply Series_map_payment_inj; [by rewrite Hc, Hc'|by rewrite Hc]].
  - destruct (load_data_inv _ _ _ _ _ Hload) as (s & d1 & d2 & d3 & _ & _ & _ & _ & ->).
    intros r (m & -> & _)%list_elem_of_fmap. simpl.
    generalize (payment_type (base (left m))). intros c.
    unfold Series_map, payment_map.
    destruct (decide (c = 1)) as [->|]; [set_solver|].
    destruct (decide (c = 2)) as [->|]; [set_solver|].
    destruct (decide (c = 3)) as [->|]; [set_solver|].
    destruct (decide (c = 4)) as [->|]; [set_solver|].
    rewrite !lookup_insert_ne, lookup_singleton_ne by done. set_solver.
  - intros f Hf. by rewrite load_data_recode.
Qed.

End Pipeline_facts.

(** ** The payment dictionary and the join *)

(** C4. The payment mapping sends 1 to "Credit Card", 2 to "Cash", 3 to
    "No Charge", 4 to "Dispute" and every other code to a null; it is a
    total function, no code raises. *)
Theorem payment_map_codes (c : Z) :
  Series_map payment_map c =
  if decide (c = 1) then Some "Credit Card"
  else if decide (c = 2) then Some "Cash"
  else if decide (c = 3) then Some "No Charge"
  else if decide (c = 4) then Some "Dispute"
  else None.
Proof.
  unfold Series_map, payment_map.
  repeat case_decide; subst; try reflexivity.
  by rewrite !lookup_insert_ne, lookup_singleton_ne.
Qed.

Lemma merge_left_length_ge {P} (df : list (derived P)) zs :
  (length df ≤ length (merge_left df zs))%nat.
Proof.
  unfold merge_left. induction df as [|l df IH]; [done|].
  rewrite bind_cons, length_app. simpl.
  destruct (merge_row_nonempty zs l) as [m Hm].
  destruct (merge_row zs l); [by apply elem_of_nil in Hm|]. simpl. lia.
Qed.

(** C5. The join is left-outer: a row of the left frame is in the joined
    frame with all its columns unchanged, every joined row carries a left
    row unchanged, no left row is lost, and a row whose [PULocationID]
    matches no zone [LocationID] appears with the four zone columns null,
    and only so. *)
Theorem merge_left_outer {P} (df : list (derived P)) (zs : list zones.row) (l : derived P) :
  l ∈ df ->
  (∃ m, m ∈ merge_left df zs ∧ left m = l) ∧
  (∀ m, m ∈ merge_left df zs -> left m ∈ df) ∧
  (length df ≤ length (merge_left df zs))%nat ∧
  ((∀ z, z ∈ zs -> zones.LocationID z ≠ PULocationID (base l)) ->
   Merged l None None None None ∈ merge_left df zs ∧
   ∀ m, m ∈ merge_left df zs -> left m = l -> m = Merged l None None None None).
Proof.
  intros Hl. split_and!.
  - destruct (merge_row_nonempty zs l) as [m Hm]. exists m. split.
    + apply list_elem_of_bind. eauto.
    + by eapply merge_row_left.
  - intros m (l' & Hm & Hl')%list_elem_of_bind.
    by rewrite (merge_row_left _ _ _ Hm).
  - apply merge_left_length_ge.
  - intros Hno. split.
    + apply list_elem_of_bind. exists l. split; [|done].
      rewrite merge_row_unmatched by done. by left.
    + intros m (l' & Hm & Hl')%list_elem_of_bind Heq.
      pose proof (merge_row_left _ _ _ Hm) as Hleft.
      assert (l' = l) as -> by congruence.
      rewrite merge_row_unmatched in Hm by done.
      by apply list_elem_of_singleton in Hm.
Qed.

(** ** Counting charts *)

Lemma total_cons k n l : total ((k, n) :: l) = (n + total l)%nat.
Proof. reflexivity. Qed.

Lemma total_count_insert k l : total (count_insert k l) = S (total l).
Proof.
  induction l as [|[k' n] l IH]; [done|].
  simpl. destruct (String.compare k k'); rewrite ?total_cons, ?IH; simpl; lia.
Qed.

Lemma total_count_add k l : total (count_add k l) = S (total l).
Proof.
  induction l as [|[k' n] l IH]; [done|].
  simpl. case_decide; rewrite ?total_cons, ?IH; simpl; lia.
Qed.

Lemma total_Permutation l1 l2 : l1 ≡ₚ l2 -> total l1 = total l2.
Proof. intros H. unfold total. by rewrite H. Qed.

Lemma total_sort_values_desc l : total (sort_values_desc l) = total l.
Proof. apply total_Permutation, merge_sort_Permutation. Qed.

Lemma total_take_drop n l : (total (take n l) + total (drop n l))%nat = total l.
Proof.
  unfold total. rewrite <- (take_drop n l) at 3.
  by rewrite fmap_app, sum_list_with_app.
Qed.

Lemma total_groupby_size {A} (key : A -> option string) (df : list A) :
  total (groupby_size key df) = length (filter (λ r, is_Some (key r)) df).
Proof.
  induction df as [|r df IH]; [done|].
  rewrite filter_cons. simpl. destruct (key r) as [k|] eqn:Hk.
  - rewrite total_count_insert, IH.
    rewrite decide_True by done. done.
  - rewrite decide_False by (by intros []). done.
Qed.

Lemma total_value_counts {A} (key : A -> option string) (df : list A) :
  total (value_counts key df) = length (filter (λ r, is_Some (key r)) df).
Proof.
  unfold value_counts. rewrite total_sort_values_desc.
  enough (∀ acc,
    total (foldl (λ acc r, match key r with
                           | Some k => count_add k acc
                           | None => acc
                           end) acc df)
    = (total acc + length (filter (λ r, is_Some (key r)) df))%nat) as H
    by (rewrite H; done).
  induction df as [|r df IH]; intros acc; [simpl; lia|].
  rewrite filter_cons. simpl. rewrite IH. destruct (key r) as [k|] eqn:Hk.
  - rewrite total_count_add, decide_True by done. simpl. lia.
  - rewrite decide_False by (by intros []). done.
Qed.

(** When no filtered row has a null zone and there are at most ten zones,
    the chart's counts sum to the number of filtered rows. *)
Lemma zone_counts_all (fdf : list enriched) :
  (∀ r, r ∈ fdf -> is_Some (Zone r)) ->
  (length (groupby_size Zone fdf) ≤ 10)%nat ->
  total (zone_counts fdf) = length fdf.
Proof.
  intros Hz Hten. unfold zone_counts.
  rewrite take_ge.
  - rewrite total_sort_values_desc, total_groupby_size.
    f_equal. induction fdf as [|r fdf IH]; [done|].
    rewrite filter_cons, decide_True by (apply Hz; left).
    f_equal. apply IH.
    + intros r' Hr'. apply Hz. by right.
    + simpl in Hten. destruct (Zone r) as [z|]; [|done].
      revert Hten. generalize (groupby_size Zone fdf). intros g.
      assert (∀ k (l : list (string * nat)),
                (length l ≤ length (count_insert k l))%nat) as Hmono.
      { intros k l. induction l as [|[k' n] l IHl]; simpl; [lia|].
        destruct (String.compare k k'); simpl; lia. }
      specialize (Hmono z g). lia.
  - unfold sort_values_desc.
    rewrite (Permutation_length (merge_sort_Permutation _ _)). exact Hten.
Qed.

(** When no filtered row has a null payment label, the payment counts sum
    to the number of filtered rows. *)
Lemma payment_counts_all (fdf : list enriched) :
  (∀ r, r ∈ fdf -> is_Some (payment_type (base (left r)))) ->
  total (payment_counts fdf) = length fdf.
Proof.
  intros Hp. unfold payment_counts.
  rewrite total_sort_values_desc, total_value_counts.
  f_equal. induction fdf as [|r fdf IH]; [done|].
  rewrite filter_cons, decide_True by (apply Hp; left).
  f_equal. apply IH. intros r' Hr'. apply Hp. by right.
Qed.

(** C2, as amended. For every filtered view, the sizes of the zone groups
    sum to the number of filtered rows whose [Zone] is not null; the chart
    keeps the ten largest groups, so its counts and those of the groups it
    leaves out sum to that number; the payment counts sum to the number of
    filtered rows whose payment label is not null.  Rows with a null key
    are in no group. *)
Theorem counts_sum creso sb (df : list enriched) :
  total (groupby_size Zone (filtered_df creso sb df))
    = length (zoned (filtered_df creso sb df)) ∧
  (total (zone_counts (filtered_df creso sb df))
   + total (drop 10 (sort_values_desc (groupby_size Zone (filtered_df creso sb df)))))%nat
    = length (zoned (filtered_df creso sb df)) ∧
  total (payment_counts (filtered_df creso sb df))
    = length (labelled (filtered_df creso sb df)) ∧
  (length (zoned (filtered_df creso sb df)) ≤ length (filtered_df creso sb df))%nat ∧
  (length (labelled (filtered_df creso sb df)) ≤ length (filtered_df creso sb df))%nat.
Proof.
  unfold zoned, labelled. split_and!.
  - apply total_groupby_size.
  - unfold zone_counts. rewrite total_take_drop, total_sort_values_desc.
    apply total_groupby_size.
  - unfold payment_counts. rewrite total_sort_values_desc.
    apply total_value_counts.
  - apply length_filter.
  - apply length_filter.
Qed.

(** * Closed examples *)

(** ** Loading a frame of equal rows in the toy world *)

Lemma mapM_lookup_seq {A} (l : list A) : mapM (l !!.) (seq 0 (length l)) = Some l.
Proof.
  apply mapM_Some, Forall2_same_length_lookup_2.
  - apply length_seq.
  - intros i j x [-> _]%lookup_seq Hx. done.
Qed.

Lemma toy_sample_frame {A} (x : A) w :
  toy.sample 150000 (Some 42) (toy.frame x) w = (inr (toy.frame x), w).
Proof.
  unfold sample, toy.frame.
  generalize 150000%N. intros n.
  rewrite length_replicate, N2Nat.id.
  rewrite decide_False by lia.
  change (toy.permutation (toy.RandomState 42) (N.to_nat n)).1
    with (seq 0 (N.to_nat n)).
  rewrite take_ge by (rewrite length_seq; lia).
  pose proof (mapM_lookup_seq (replicate (N.to_nat n) x)) as Hm.
  rewrite length_replicate in Hm. by rewrite Hm.
Qed.

Lemma clean_replicate {T1 T2 P} n (x : trip T1 T2 P) :
  positive x -> clean (replicate n x) = replicate n x.
Proof.
  intros [Hd Hf]. unfold clean. induction n as [|n IH]; [done|].
  rewrite replicate_S, filter_cons, decide_True by (by apply Is_true_true).
  rewrite filter_cons, decide_True by (by apply Is_true_true).
  by rewrite IH.
Qed.

Lemma clean_replicate_dropped {T1 T2 P} n (x : trip T1 T2 P) :
  ¬ positive x -> clean (replicate n x) = [].
Proof.
  intros Hneg. destruct (clean (replicate n x)) as [|y l] eqn:Hc; [done|].
  assert (y ∈ clean (replicate n x)) as Hy by (rewrite Hc; left).
  apply list_elem_of_filter in Hy as [Hf Hy].
  apply list_elem_of_filter in Hy as [Hd Hy].
  apply elem_of_replicate_inv in Hy as ->.
  exfalso. apply Hneg. split; by apply Is_true_true.
Qed.

Lemma merge_left_replicate {P} n (d : derived P) zs m :
  merge_row zs d = [m] -> merge_left (replicate n d) zs = replicate n m.
Proof.
  intros Hm. unfold merge_left. induction n as [|n IH]; [done|].
  by rewrite replicate_S, bind_cons, Hm, IH.
Qed.

Lemma merge_left_replicate_length {P} n (d : derived P) zs :
  length (merge_left (replicate n d) zs) = (n * length (merge_row zs d))%nat.
Proof.
  unfold merge_left. induction n as [|n IH]; [done|].
  rewrite replicate_S, bind_cons, length_app, IH. lia.
Qed.

Section frames.
Context {rng : Type}.
Variable RandomState : Z -> rng.
Variable permutation : rng -> nat -> list nat * rng.
Variable parse_datetime : string -> option datetime.
Variable creso : reso.

(** The load of a sample made of [n] copies of one row. *)
Lemma load_data_replicate taxi zs (w w' : world rng (list enriched)) n x tp td delta :
  sample RandomState permutation 150000 (Some 42) taxi w = (inr (replicate n x), w') ->
  positive x ->
  to_datetime parse_datetime (tpep_pickup_datetime x) = inr tp ->
  to_datetime parse_datetime (tpep_dropoff_datetime x) = inr td ->
  datetime_sub td tp = inr delta ->
  load_data RandomState permutation parse_datetime creso taxi zs w =
  (inr (map_payment <$>
        merge_left (replicate n (derive creso (parsed x tp td) delta)) zs), w').
Proof.
  intros Hs Hpos Htp Htd Hsub.
  rewrite load_data_unfold, Hs, clean_replicate by exact Hpos.
  rewrite (traverse_replicate _ _ x (set_pickup x tp)).
  2: { unfold parse_pickup. rewrite Htp. reflexivity. }
  rewrite (traverse_replicate _ _ (set_pickup x tp) (parsed x tp td)).
  2: { unfold parse_dropoff. cbn [set_pickup tpep_dropoff_datetime].
       rewrite Htd. reflexivity. }
  rewrite (traverse_replicate _ _ (parsed x tp td)
             (derive creso (parsed x tp td) delta)).
  2: { unfold add_derived.
       cbn [parsed set_pickup set_dropoff tpep_dropoff_datetime tpep_pickup_datetime].
       rewrite Hsub. reflexivity. }
  reflexivity.
Qed.

Lemma load_data_replicate_dropped taxi zs (w w' : world rng (list enriched)) n x :
  sample RandomState permutation 150000 (Some 42) taxi w = (inr (replicate n x), w') ->
  ¬ positive x ->
  load_data RandomState permutation parse_datetime creso taxi zs w = (inr [], w').
Proof.
  intros Hs Hneg.
  rewrite load_data_unfold, Hs, clean_replicate_dropped by exact Hneg.
  reflexivity.
Qed.
End frames.

Lemma toy_load_frame x tp td zs w :
  positive x ->
  to_datetime toy.parse_datetime (tpep_pickup_datetime x) = inr tp ->
  to_datetime toy.parse_datetime (tpep_dropoff_datetime x) = inr td ->
  datetime_sub td tp = inr (toy.delta td tp) ->
  toy.load_data (toy.frame x) zs w =
  (inr (map_payment <$> merge_left (toy.frame (toy.derived_of x tp td)) zs), w).
Proof.
  intros Hpos Htp Htd Hsub. unfold toy.frame, toy.derived_of.
  apply load_data_replicate; [|exact Hpos|exact Htp|exact Htd|exact Hsub].
  apply (toy_sample_frame x w).
Qed.

Lemma toy_load_frame_dropped x zs w :
  ¬ positive x -> toy.load_data (toy.frame x) zs w = (inr [], w).
Proof.
  intros Hneg.
  apply (load_data_replicate_dropped _ _ _ _ _ _ _ _ (N.to_nat 150000) x);
    [|exact Hneg].
  apply (toy_sample_frame x w).
Qed.

Lemma toy_load_zone161 x tp td w :
  positive x -> PULocationID x = 161 ->
  to_datetime toy.parse_datetime (tpep_pickup_datetime x) = inr tp ->
  to_datetime toy.parse_datetime (tpep_dropoff_datetime x) = inr td ->
  datetime_sub td tp = inr (toy.delta td tp) ->
  toy.load_data (toy.frame x) [toy.zone161] w =
  (inr (toy.frame (toy.in_zone161 x tp td)), w).
Proof.
  intros Hpos Hpu Htp Htd Hsub.
  rewrite (toy_load_frame x tp td) by first [exact Hpos|exact Htp|exact Htd|exact Hsub].
  unfold toy.frame.
  rewrite (merge_left_replicate _ _ _
             (Merged (toy.derived_of x tp td) (Some 161)
                (Some "Manhattan") (Some "Midtown Center") (Some "Yellow Zone"))).
  - by rewrite fmap_replicate.
  - unfold merge_row, matches, toy.derived_of.
    cbn [derive base parsed set_dropoff set_pickup PULocationID].
    rewrite Hpu. reflexivity.
Qed.

Lemma toy_load_no_zone x tp td w :
  positive x ->
  to_datetime toy.parse_datetime (tpep_pickup_datetime x) = inr tp ->
  to_datetime toy.parse_datetime (tpep_dropoff_datetime x) = inr td ->
  datetime_sub td tp = inr (toy.delta td tp) ->
  toy.load_data (toy.frame x) [] w = (inr (toy.frame (toy.no_zone x tp td)), w).
Proof.
  intros Hpos Htp Htd Hsub.
  rewrite (toy_load_frame x tp td) by first [exact Hpos|exact Htp|exact Htd|exact Hsub].
  unfold toy.frame.
  rewrite (merge_left_replicate _ _ _
             (Merged (toy.derived_of x tp td) None None None None))
    by reflexivity.
  by rewrite fmap_replicate.
Qed.

Lemma pair_inr_inj {E A V} (x y : A) (v v' : V) :
  (inr x : E + A, v) = (inr y, v') -> x = y.
Proof. by intros [= ->]. Qed.

Lemma elem_of_frame {A} (x : A) : x ∈ toy.frame x.
Proof. apply elem_of_replicate. split; [done|]. lia. Qed.

Lemma length_frame {A} (x : A) : N.of_nat (length (toy.frame x)) = 150000%N.
Proof. unfold toy.frame. rewrite length_replicate. lia. Qed.

Lemma filter_replicate {A} (P : A -> Prop) `{∀ x, Decision (P x)} n x :
  P x -> filter P (replicate n x) = replicate n x.
Proof.
  intros HP. induction n as [|n IH]; [reflexivity|].
  rewrite replicate_S, filter_cons, decide_True by exact HP. by rewrite IH.
Qed.

Lemma groupby_size_null {A} (key : A -> option string) n x :
  key x = None -> groupby_size key (replicate n x) = [].
Proof.
  intros Hk. induction n as [|n IH]; [reflexivity|].
  rewrite replicate_S. unfold groupby_size in *. simpl. by rewrite Hk.
Qed.

Lemma value_counts_null {A} (key : A -> option string) n x :
  key x = None -> value_counts key (replicate n x) = [].
Proof.
  intros Hk. unfold value_counts.
  enough (foldl (λ acc r, match key r with
                          | Some k => count_add k acc
                          | None => acc
                          end) [] (replicate n x) = []) as -> by reflexivity.
  induction n as [|n IH]; [reflexivity|].
  rewrite replicate_S. simpl. by rewrite Hk.
Qed.

(** ** The rows of the toy world *)

Lemma ride_positive : positive toy.ride.
Proof. split; reflexivity. Qed.

Lemma inverted_positive : positive toy.inverted.
Proof. split; reflexivity. Qed.

Lemma blink_positive : positive toy.blink.
Proof. split; reflexivity. Qed.

Lemma untimed_positive : positive toy.untimed.
Proof. split; reflexivity. Qed.

Lemma unparsed_positive : positive toy.unparsed.
Proof. split; reflexivity. Qed.

Lemma unlisted_positive : positive toy.unlisted.
Proof. split; reflexivity. Qed.

Lemma garbled_dropped : ¬ positive toy.garbled.
Proof. intros [Hd _]. vm_compute in Hd. discriminate Hd. Qed.

Lemma five_for_zero_same_label c :
  Series_map payment_map (toy.five_for_zero c) = Series_map payment_map c.
Proof. unfold toy.five_for_zero. case_decide; [subst|]; reflexivity. Qed.

(** The examples of the specification: 08:00:00 to 08:17:30 is 17.5
    minutes; 2024-01-15T08:30:00 is hour 8 of a Monday. *)
Example duration_17_5 :
  trip_duration_minutes (left (toy.ride_out))
  = SFdiv 53 1024 (binary_normalize 53 1024 35 0 false)
                  (binary_normalize 53 1024 2 0 false) ∧
  trip_duration_minutes (left (toy.ride_out))
  = S754_finite false 4925812092436480 (-48).
Proof. split; reflexivity. Qed.

(** A difference of -50 microseconds is -1 whole second plus 999950
    millionths: the minutes are -0x1.bf647612f3333p-21. *)
Example duration_minus_50us :
  trip_duration_minutes (left (toy.blink_out))
  = S754_finite true 0x1bf647612f3333 (-73).
Proof. reflexivity. Qed.

(** A difference that leaves int64 is an error, not a wrapped value. *)
Example datetime_sub_overflow :
  datetime_sub (Some int64_max) (Some (-1)) = Err OverflowError ∧
  datetime_sub (Some (-2)) (Some int64_max) = Err OverflowError ∧
  datetime_sub (Some int64_max) (Some 0) = Ok (Some int64_max).
Proof. split_and!; reflexivity. Qed.

Example hour_8_monday :
  pickup_hour (left (toy.unlisted_out)) = Some 8 ∧
  pickup_day_of_week (left (toy.unlisted_out)) = Some "Monday".
Proof. split; reflexivity. Qed.

(** Without a seed the draw follows the global generator: the same frame
    sampled from two states gives two different samples. *)
Example sample_unseeded_follows_state :
  (toy.sample 1 None [10; 20] toy.w0).1 = inr [10] ∧
  (toy.sample 1 None [10; 20] toy.w1).1 = inr [20] ∧
  (toy.sample 1 (Some 42) [10; 20] toy.w0).1 = (toy.sample 1 (Some 42) [10; 20] toy.w1).1.
Proof. split_and!; reflexivity. Qed.

(** ** Instances of the properties *)

Lemma load_data_positive_witness :
  toy.load_data (toy.frame toy.ride) [toy.zone161] toy.w0
    = (inr (toy.frame (toy.ride_out)), toy.w0) ∧
  toy.sample 150000 (Some 42) (toy.frame toy.ride) toy.w0
    = (inr (toy.frame toy.ride), toy.w0) ∧
  positive (base (left (toy.ride_out))).
Proof.
  pose proof (toy_load_zone161 toy.ride toy.t0800 toy.t0817 toy.w0
                ride_positive eq_refl eq_refl eq_refl eq_refl) as Hl.
  pose proof (toy_sample_frame toy.ride toy.w0) as Hs.
  split; [exact Hl|]. split; [exact Hs|].
  apply (proj1 (load_data_positive _ _ _ _ _ _ _ _ _ _ Hl Hs)).
  apply elem_of_frame.
Defined.

Lemma trip_duration_minutes_formula_witness :
  toy.load_data (toy.frame toy.inverted) [toy.zone161] toy.w0
    = (inr (toy.frame toy.inverted_out), toy.w0) ∧
  toy.sample 150000 (Some 42) (toy.frame toy.inverted) toy.w0
    = (inr (toy.frame toy.inverted), toy.w0) ∧
  toy.inverted_out ∈ toy.frame toy.inverted_out ∧
  tpep_pickup_datetime (base (left toy.inverted_out)) = Some 1705306650000000 ∧
  tpep_dropoff_datetime (base (left toy.inverted_out)) = Some 1705305600000000 ∧
  1705305600000000 - 1705306650000000 = -1050 * periods_per_second reso_us ∧
  1705305600000000 - 1705306650000000 ≠ int64_min ∧
  trip_duration_minutes (left toy.inverted_out) =
    SFdiv 53 1024
      (SFadd 53 1024 (binary_normalize 53 1024 (-1050) 0 false) (S754_zero false))
      (binary_normalize 53 1024 60 0 false) ∧
  trip_duration_minutes (left toy.inverted_out)
    = S754_finite true 4925812092436480 (-48) ∧
  toy.load_data (toy.frame toy.blink) [toy.zone161] toy.w0
    = (inr (toy.frame toy.blink_out), toy.w0) ∧
  toy.sample 150000 (Some 42) (toy.frame toy.blink) toy.w0
    = (inr (toy.frame toy.blink), toy.w0) ∧
  toy.blink_out ∈ toy.frame toy.blink_out ∧
  tpep_pickup_datetime (base (left toy.blink_out)) = Some 1705305600000050 ∧
  tpep_dropoff_datetime (base (left toy.blink_out)) = Some 1705305600000000 ∧
  trip_duration_minutes (left toy.blink_out) =
    SFdiv 53 1024
      (SFadd 53 1024
         (binary_normalize 53 1024 (-1) 0 false)
         (SFdiv 53 1024 (binary_normalize 53 1024 999950 0 false)
                        (binary_normalize 53 1024 1000000 0 false)))
      (binary_normalize 53 1024 60 0 false) ∧
  trip_duration_minutes (left toy.blink_out)
    = S754_finite true 0x1bf647612f3333 (-73).
Proof.
  pose proof (toy_load_zone161 toy.inverted toy.t0817 toy.t0800 toy.w0
                inverted_positive eq_refl eq_refl eq_refl eq_refl) as Hl.
  pose proof (toy_sample_frame toy.inverted toy.w0) as Hs.
  pose proof (toy_load_zone161 toy.blink toy.t0800_50us toy.t0800 toy.w0
                blink_positive eq_refl eq_refl eq_refl eq_refl) as Hl'.
  pose proof (toy_sample_frame toy.blink toy.w0) as Hs'.
  assert (1705305600000000 - 1705306650000000 ≠ int64_min) as Hne
    by discriminate.
  assert (1705305600000000 - 1705305600000050 ≠ int64_min) as Hne'
    by discriminate.
  split; [exact Hl|]. split; [exact Hs|]. split; [apply elem_of_frame|].
  split; [reflexivity|]. split; [reflexivity|]. split; [reflexivity|].
  split; [exact Hne|].
  split.
  { destruct (proj1 (trip_duration_minutes_formula _ _ _ _ _ _ _ _ _ _ Hl Hs)
                _ (elem_of_frame toy.inverted_out)) as (_ & _ & Hwhole).
    exact (proj1 (Hwhole 1705306650000000 1705305600000000 (-1050)
                    eq_refl eq_refl eq_refl Hne)). }
  split; [reflexivity|].
  split; [exact Hl'|]. split; [exact Hs'|]. split; [apply elem_of_frame|].
  split; [reflexivity|]. split; [reflexivity|].
  split; [|reflexivity].
  destruct (proj1 (trip_duration_minutes_formula _ _ _ _ _ _ _ _ _ _ Hl' Hs')
              _ (elem_of_frame toy.blink_out)) as (_ & Hgen & _).
  exact (Hgen 1705305600000050 1705305600000000 eq_refl eq_refl eq_refl Hne').
Defined.

Lemma merge_left_outer_witness :
  toy.unlisted_derived ∈ [toy.unlisted_derived] ∧
  (∀ z, z ∈ [toy.zone161] ->
        zones.LocationID z ≠ PULocationID (base toy.unlisted_derived)) ∧
  Merged toy.unlisted_derived None None None None
    ∈ merge_left [toy.unlisted_derived] [toy.zone161].
Proof.
  set (l := toy.unlisted_derived).
  assert (l ∈ [l]) as Hin by (left).
  assert (∀ z, z ∈ [toy.zone161] -> zones.LocationID z ≠ PULocationID (base l)) as Hno.
  { intros z Hz. apply list_elem_of_singleton in Hz. subst z. discriminate. }
  split; [exact Hin|]. split; [exact Hno|].
  destruct (merge_left_outer [l] [toy.zone161] l Hin) as (_ & _ & _ & Hnull).
  exact (proj1 (Hnull Hno)).
Defined.

Lemma load_data_row_count_witness :
  NoDup (zones.LocationID <$> [toy.zone161]) ∧
  toy.load_data (toy.frame toy.ride) [toy.zone161] toy.w0
    = (inr (toy.frame (toy.ride_out)), toy.w0) ∧
  (N.of_nat (length (toy.frame (toy.ride_out)))
   ≤ 150000)%N.
Proof.
  pose proof (toy_load_zone161 toy.ride toy.t0800 toy.t0817 toy.w0
                ride_positive eq_refl eq_refl eq_refl eq_refl) as Hl.
  pose proof (toy_sample_frame toy.ride toy.w0) as Hs.
  assert (NoDup (zones.LocationID <$> [toy.zone161])) as Hnd
    by apply NoDup_singleton.
  split; [exact Hnd|]. split; [exact Hl|].
  exact (proj1 (load_data_row_count _ _ _ _ _ _ _ _ _ _ Hnd Hl Hs)).
Defined.

Lemma pickup_hour_and_day_witness :
  toy.load_data (toy.frame toy.ride) [toy.zone161] toy.w0
    = (inr (toy.frame toy.ride_out), toy.w0) ∧
  toy.ride_out ∈ toy.frame toy.ride_out ∧
  pickup_hour (left toy.ride_out)
    = dt.hour reso_us (tpep_pickup_datetime (base (left toy.ride_out))) ∧
  pickup_hour (left toy.ride_out) = Some 8 ∧
  toy.load_data (toy.frame toy.unlisted) [] toy.w0
    = (inr (toy.frame toy.unlisted_out), toy.w0) ∧
  toy.unlisted_out ∈ toy.frame toy.unlisted_out ∧
  tpep_pickup_datetime (base (left toy.unlisted_out))
    = Timestamp reso_us 2024 1 15 8 30 0 ∧
  pickup_hour (left toy.unlisted_out) = Some 8 ∧
  pickup_day_of_week (left toy.unlisted_out)
    = dt.day_name reso_us (Timestamp reso_us 2024 1 15 8 30 0) ∧
  pickup_day_of_week (left toy.unlisted_out) = Some "Monday".
Proof.
  set (r := toy.ride_out).
  pose proof (toy_load_zone161 toy.ride toy.t0800 toy.t0817 toy.w0
                ride_positive eq_refl eq_refl eq_refl eq_refl) as Hl.
  pose proof (toy_sample_frame toy.ride toy.w0) as Hs.
  set (r' := toy.unlisted_out).
  pose proof (toy_load_no_zone toy.unlisted toy.t0830 toy.t0830 toy.w0
                unlisted_positive eq_refl eq_refl eq_refl) as Hl'.
  pose proof (toy_sample_frame toy.unlisted toy.w0) as Hs'.
  destruct (pickup_hour_and_day _ _ _ _ _ _ _ _ _ _ r' Hl' Hs' (elem_of_frame r'))
    as (_ & Hday & _ & Hhour & _).
  split; [exact Hl|]. split; [apply elem_of_frame|].
  split; [exact (proj1 (pickup_hour_and_day _ _ _ _ _ _ _ _ _ _ r Hl Hs
                          (elem_of_frame r)))|].
  split; [reflexivity|].
  split; [exact Hl'|]. split; [apply elem_of_frame|]. split; [reflexivity|].
  split; [apply (Hhour 2024 1 15 8 30 0); [lia|lia|lia|reflexivity]|].
  split; [exact Hday|reflexivity].
Defined.

Lemma load_data_unparseable_witness :
  toy.sample 150000 (Some 42) (toy.frame toy.unparsed) toy.w0
    = (inr (toy.frame toy.unparsed), toy.w0) ∧
  toy.unparsed ∈ clean (toy.frame toy.unparsed) ∧
  to_datetime toy.parse_datetime (tpep_pickup_datetime toy.unparsed)
    = Err DateParseError ∧
  toy.load_data (toy.frame toy.unparsed) [toy.zone161] toy.w0
    = (Err DateParseError, toy.w0).
Proof.
  pose proof (toy_sample_frame toy.unparsed toy.w0) as Hs.
  assert (toy.unparsed ∈ clean (toy.frame toy.unparsed)) as Hin.
  { unfold toy.frame. rewrite clean_replicate by exact unparsed_positive.
    apply (elem_of_frame toy.unparsed). }
  split; [exact Hs|]. split; [exact Hin|]. split; [reflexivity|].
  exact (proj1 (load_data_unparseable toy.RandomState toy.permutation
                  toy.parse_datetime reso_us _ [toy.zone161] _ _ _ _
                  Hs Hin (or_introl eq_refl))).
Defined.

Lemma payment_type_labels_witness :
  toy.load_data (toy.frame toy.unlisted) [] toy.w0
    = (inr (toy.frame toy.unlisted_out), toy.w0) ∧
  trip_map_payment toy.five_for_zero toy.unlisted ≠ toy.unlisted ∧
  toy.load_data (trip_map_payment toy.five_for_zero <$> toy.frame toy.unlisted)
    [] toy.w0 = (inr (toy.frame toy.unlisted_out), toy.w0).
Proof.
  pose proof (toy_load_no_zone toy.unlisted toy.t0830 toy.t0830 toy.w0
                unlisted_positive eq_refl eq_refl eq_refl) as Hl.
  split; [exact Hl|]. split; [discriminate|].
  exact (proj1 (proj2 (payment_type_labels _ _ _ _ _ _ _ _ _ Hl))
           toy.five_for_zero five_for_zero_same_label).
Defined.

(** ** Where the specification says more than the code does *)

(** Against C2 as written: a loaded table of rides from an unlisted zone
    with payment code 0, everything selected in the sidebar.  The filtered
    view has 150,000 rows; both charts count none of them. *)
Lemma counts_sum_counterexample :
  toy.load_data (toy.frame toy.unlisted) [] toy.w0
    = (inr (toy.frame toy.unlisted_out), toy.w0) ∧
  N.of_nat (length (filtered_df reso_us toy.sidebar_null (toy.frame toy.unlisted_out)))
    = 150000%N ∧
  total (zone_counts (filtered_df reso_us toy.sidebar_null (toy.frame toy.unlisted_out)))
    = 0%nat ∧
  total (payment_counts (filtered_df reso_us toy.sidebar_null (toy.frame toy.unlisted_out)))
    = 0%nat ∧
  total (zone_counts (filtered_df reso_us toy.sidebar_null (toy.frame toy.unlisted_out)))
    ≠ length (filtered_df reso_us toy.sidebar_null (toy.frame toy.unlisted_out)) ∧
  total (payment_counts (filtered_df reso_us toy.sidebar_null (toy.frame toy.unlisted_out)))
    ≠ length (filtered_df reso_us toy.sidebar_null (toy.frame toy.unlisted_out)).
Proof.
  set (df := toy.frame toy.unlisted_out).
  set (fdf := filtered_df reso_us toy.sidebar_null df).
  assert (fdf = df) as Hf.
  { unfold fdf, filtered_df, df, toy.frame.
    apply filter_replicate. reflexivity. }
  assert (N.of_nat (length fdf) = 150000%N) as Hlen
    by (rewrite Hf; apply length_frame).
  assert (total (zone_counts fdf) = 0%nat) as Hz.
  { rewrite Hf. unfold zone_counts, df, toy.frame.
    rewrite groupby_size_null by reflexivity. reflexivity. }
  assert (total (payment_counts fdf) = 0%nat) as Hp.
  { rewrite Hf. unfold payment_counts, df, toy.frame.
    rewrite value_counts_null by reflexivity. reflexivity. }
  split_and!; [|exact Hlen|exact Hz|exact Hp|lia|lia].
  exact (toy_load_no_zone toy.unlisted toy.t0830 toy.t0830 toy.w0
           unlisted_positive eq_refl eq_refl eq_refl).
Qed.

(** The row bound rests on the zone table's ids being unique, as the
    specification has them: the merge itself does not check it.  With a
    zone table that lists location 161 twice every ride from zone 161 is
    joined twice and the loaded table has 300,000 rows. *)
Lemma duplicate_zone_ids_double_the_rows :
  toy.load_data (toy.frame toy.ride) [toy.zone161; toy.zone161] toy.w0
    = (inr toy.doubled, toy.w0) ∧
  N.of_nat (length toy.doubled) = 300000%N ∧
  ¬ (N.of_nat (length toy.doubled) ≤ 150000)%N.
Proof.
  assert (N.of_nat (length toy.doubled) = 300000%N) as Hlen.
  { unfold toy.doubled, toy.frame.
    rewrite length_fmap, merge_left_replicate_length.
    change (length (merge_row [toy.zone161; toy.zone161]
                      (toy.derived_of toy.ride toy.t0800 toy.t0817)))
      with 2%nat.
    lia. }
  split_and!; [|exact Hlen|lia].
  exact (toy_load_frame toy.ride toy.t0800 toy.t0817 _ toy.w0
           ride_positive eq_refl eq_refl eq_refl).
Qed.

(** Against C10 as written: rides paid by card, code 1.  The loaded
    table says "Credit Card", which only code 1 is mapped to, and the
    same rides fetched with any other code load another table: the code
    is read back from the output. *)
Lemma payment_type_labels_counterexample :
  toy.load_data (toy.frame toy.ride) [toy.zone161] toy.w0
    = (inr (toy.frame toy.ride_out), toy.w0) ∧
  payment_type toy.ride = 1 ∧
  payment_type (base (left toy.ride_out)) = Some "Credit Card" ∧
  (∀ c, Series_map payment_map c = payment_type (base (left toy.ride_out)) -> c = 1) ∧
  (∀ c, c ≠ 1 ->
     toy.load_data (toy.frame (trip_map_payment (λ _, c) toy.ride))
       [toy.zone161] toy.w0
     ≠ (inr (toy.frame toy.ride_out), toy.w0)).
Proof.
  assert (∀ c, Series_map payment_map c = Some "Credit Card" -> c = 1) as Hcard.
  { intros c Hc.
    destruct (Series_map_payment_inj c 1) as [-> _];
      [by rewrite Hc|by rewrite Hc|reflexivity]. }
  split_and!.
  - exact (toy_load_zone161 toy.ride toy.t0800 toy.t0817 toy.w0
             ride_positive eq_refl eq_refl eq_refl eq_refl).
  - reflexivity.
  - reflexivity.
  - exact Hcard.
  - intros c Hc.
    rewrite (toy_load_zone161 (trip_map_payment (λ _, c) toy.ride)
               toy.t0800 toy.t0817 toy.w0 ride_positive
               eq_refl eq_refl eq_refl eq_refl).
    intros Heq. apply Hc, Hcard.
    assert (toy.in_zone161 (trip_map_payment (λ _, c) toy.ride) toy.t0800 toy.t0817
            = toy.ride_out) as Hrow.
    { apply (elem_of_replicate_inv _ (N.to_nat 150000)).
      change (replicate (N.to_nat 150000) toy.ride_out) with (toy.frame toy.ride_out).
      apply (pair_inr_inj (E := error)) in Heq. rewrite <- Heq.
      apply elem_of_frame. }
    exact (f_equal (λ r, payment_type (base (left r))) Hrow).
Qed.

(** Against C7 as written: rides without pickup time.  They pass the two
    filters, and in the loaded table their [pickup_hour] is a null, not an
    hour in [0,23]; so is their [pickup_day_of_week]. *)
Lemma pickup_hour_and_day_counterexample :
  toy.load_data (toy.frame toy.untimed) [toy.zone161] toy.w0
    = (inr (toy.frame toy.untimed_out), toy.w0) ∧
  toy.untimed_out ∈ toy.frame toy.untimed_out ∧
  pickup_hour (left toy.untimed_out) = None ∧
  pickup_day_of_week (left toy.untimed_out) = None ∧
  ¬ (∃ h, pickup_hour (left toy.untimed_out) = Some h ∧ 0 ≤ h ≤ 23).
Proof.
  split_and!.
  - exact (toy_load_zone161 toy.untimed NaT toy.t0817 toy.w0
             untimed_positive eq_refl eq_refl eq_refl eq_refl).
  - apply elem_of_frame.
  - reflexivity.
  - reflexivity.
  - intros (h & Hh & _). discriminate Hh.
Qed.

(** Against C9 as written: a sample whose rows all have an unparseable
    pickup field and zero miles.  The rows are dropped before any
    timestamp is parsed, and [load_data] returns the empty table. *)
Lemma load_data_unparseable_counterexample :
  toy.sample 150000 (Some 42) (toy.frame toy.garbled) toy.w0
    = (inr (toy.frame toy.garbled), toy.w0) ∧
  toy.garbled ∈ toy.frame toy.garbled ∧
  to_datetime toy.parse_datetime (tpep_pickup_datetime toy.garbled)
    = Err DateParseError ∧
  toy.load_data (toy.frame toy.garbled) [toy.zone161] toy.w0 = (inr [], toy.w0).
Proof.
  split_and!.
  - apply toy_sample_frame.
  - apply elem_of_frame.
  - reflexivity.
  - apply toy_load_frame_dropped, garbled_dropped.
Qed.

(** * Further properties of the code *)

(** ** Sampling without replacement *)

Lemma mapM_omap {A B} (f : A -> option B) (l : list A) ys :
  mapM f l = Some ys -> omap f l = ys.
Proof.
  revert ys. induction l as [|x l IH]; intros ys; simpl.
  - by intros [= <-].
  - destruct (f x) as [y|]; simpl; [|discriminate].
    destruct (mapM f l) as [ys'|]; simpl; [|discriminate].
    intros [= <-]. f_equal. by apply IH.
Qed.

Lemma omap_submseteq {A B} (f : A -> option B) (l1 l2 : list A) :
  l1 ⊆+ l2 -> omap f l1 ⊆+ omap f l2.
Proof.
  induction 1 as [|x l1 l2 _ IH|x y l|x l1 l2 _ IH|l1 l2 l3 _ IH1 _ IH2]; simpl.
  - constructor.
  - destruct (f x); [by constructor|done].
  - destruct (f x), (f y); try done. apply submseteq_swap.
  - destruct (f x); [by apply submseteq_cons|done].
  - by etrans.
Qed.

Lemma omap_lookup_seq {A} (l : list A) : omap (l !!.) (seq 0 (length l)) = l.
Proof. apply mapM_omap, mapM_lookup_seq. Qed.

(** Rows taken at distinct positions of a frame, each at most once. *)
Lemma take_rows_submseteq {A} (df rows : list A) (idx : list nat) :
  idx ⊆+ seq 0 (length df) ->
  mapM (df !!.) idx = Some rows ->
  rows ⊆+ df.
Proof.
  intros Hidx Hm. apply mapM_omap in Hm as <-.
  etrans; [apply (omap_submseteq _ _ _ Hidx)|].
  by rewrite omap_lookup_seq.
Qed.

Section More_pipeline.
Context {rng : Type}.
Variable RandomState : Z -> rng.
Variable permutation : rng -> nat -> list nat * rng.
Variable parse_datetime : string -> option datetime.
Variable creso : reso.

Abbreviation W := (world rng (list enriched)).
Abbreviation sample' := (sample RandomState permutation).
Abbreviation load_data' := (load_data RandomState permutation parse_datetime creso).
Abbreviation parse_pickup' := (parse_pickup parse_datetime).
Abbreviation parse_dropoff' := (parse_dropoff parse_datetime).

Abbreviation shuffles := (shuffles permutation).

(** X1. A fetched frame of fewer than 150,000 rows cannot be sampled
    without replacement: [load_data] raises the ValueError of
    [DataFrame.sample], whatever the rows are, and leaves the process
    state as it was. *)
Theorem load_data_short_frame taxi zs (w : W) :
  (N.of_nat (length taxi) < 150000)%N ->
  load_data' taxi zs w = (Err ValueError, w).
Proof.
  intros Hshort. rewrite load_data_unfold. unfold sample.
  by rewrite decide_True.
Qed.

(** X2. When the generator draws permutations, sampling [n] rows from a
    frame of at least [n] rows succeeds, with or without a seed, and
    returns exactly [n] rows, no row of the frame drawn more often than
    it occurs there. *)
Theorem sample_without_replacement {A} n rs (df : list A) (w : W) :
  shuffles ->
  (n ≤ N.of_nat (length df))%N ->
  ∃ rows w',
    sample' n rs df w = (inr rows, w') ∧
    N.of_nat (length rows) = n ∧
    rows ⊆+ df.
Proof.
  intros Hperm Hn. unfold sample. rewrite decide_False by lia.
  set (pw := match rs with Some _ => _ | None => _ end).
  assert (pw.1 ≡ₚ seq 0 (length df)) as Hp.
  { unfold pw. destruct rs as [seed|]; simpl.
    - apply Hperm.
    - pose proof (Hperm (np_random w) (length df)) as H.
      by destruct (permutation (np_random w) (length df)). }
  destruct pw as [perm w1]. simpl in Hp.
  assert (take (N.to_nat n) perm ⊆+ seq 0 (length df)) as Hsub.
  { rewrite <- Hp. apply sublist_submseteq, sublist_take. }
  assert (is_Some (mapM (df !!.) (take (N.to_nat n) perm))) as [rows Hrows].
  { apply mapM_is_Some, Forall_forall. intros i Hi. simpl.
    apply lookup_lt_is_Some.
    assert (i ∈ seq 0 (length df)) as Hi'
      by (eapply elem_of_submseteq; [exact Hi|exact Hsub]).
    apply elem_of_seq in Hi'. lia. }
  rewrite Hrows. exists rows, w1. split_and!; [done| |].
  - apply mapM_Some, Forall2_length in Hrows. rewrite <- Hrows, length_take.
    apply Permutation_length in Hp. rewrite length_seq in Hp. lia.
  - by eapply take_rows_submseteq.
Qed.

Lemma traverse_Forall_inr {A B} (f : A -> result B) (l : list A) :
  Forall (λ x, ∃ y, f x = inr y) l -> ∃ ys, traverse f l = inr ys.
Proof.
  induction 1 as [|x l [y Hy] _ [ys IH]]; [by eexists|].
  exists (y :: ys). simpl. by rewrite Hy, IH.
Qed.

(** X3. When the generator draws permutations, the fetched frame has at
    least 150,000 rows, its pickup and dropoff columns hold timestamps
    (datetime64 columns, as a Parquet file has them: nothing is left to
    parse) and, in every row that the filters keep, the difference of two
    timestamps that are not NaT lies within int64, above its least value,
    [load_data] returns a table, never an error, and leaves the process
    state as it was. *)
Theorem load_data_succeeds taxi zs (w : W) :
  shuffles ->
  (150000 ≤ N.of_nat (length taxi))%N ->
  (∀ r, r ∈ taxi ->
        ∃ tp td, tpep_pickup_datetime r = TsValue tp ∧
                 tpep_dropoff_datetime r = TsValue td) ->
  (∀ r p d, r ∈ taxi -> positive r ->
            tpep_pickup_datetime r = TsValue (Some p) ->
            tpep_dropoff_datetime r = TsValue (Some d) ->
            int64_min < d - p ≤ int64_max) ->
  ∃ out, load_data' taxi zs w = (inr out, w).
Proof.
  intros Hperm Hn Hvalues Hrange.
  destruct (sample_without_replacement 150000 (Some 42) taxi w Hperm Hn)
    as (s & w' & Hs & _ & Hsub).
  assert (w' = w) as ->.
  { rewrite (sample_seeded _ _ _ _ _ w w) in Hs. by injection Hs. }
  rewrite load_data_unfold, Hs.
  assert (∀ r, r ∈ clean s -> r ∈ taxi ∧ positive r) as Hclean.
  { intros r [Hr Hpos]%elem_of_clean. split; [|done].
    eapply elem_of_submseteq; [exact Hr|exact Hsub]. }
  destruct (traverse_Forall_inr parse_pickup' (clean s)) as [d1 H1].
  { apply Forall_forall. intros r [Hr Hpos]%Hclean.
    destruct (Hvalues r Hr) as (tp & td & Htp & _).
    exists (set_pickup r tp). unfold parse_pickup. by rewrite Htp. }
  rewrite H1.
  destruct (traverse_Forall_inr parse_dropoff' d1) as [d2 H2].
  { apply Forall_forall. intros r1 Hr1.
    apply traverse_inr_Forall2 in H1.
    apply list_elem_of_lookup in Hr1 as [i Hi].
    destruct (Forall2_lookup_r _ _ _ _ _ H1 Hi) as (r & Hri & Hp).
    apply parse_pickup_inr in Hp as (tp & _ & ->).
    assert (r ∈ clean s) as [Hr Hpos]%Hclean by (eapply list_elem_of_lookup_2, Hri).
    destruct (Hvalues r Hr) as (_ & td & _ & Htd).
    exists (set_dropoff (set_pickup r tp) td).
    unfold parse_dropoff. cbn [set_pickup tpep_dropoff_datetime]. by rewrite Htd. }
  rewrite H2.
  destruct (traverse_Forall_inr (add_derived creso) d2) as [d3 H3].
  { apply Forall_forall. intros r2 Hr2.
    pose proof (parse_both_elem _ _ _ _ H1 H2) as HF.
    apply list_elem_of_lookup in Hr2 as [i Hi].
    destruct (Forall2_lookup_r _ _ _ _ _ HF Hi)
      as (r & Hri & tp & td & Htp & Htd & ->).
    assert (r ∈ clean s) as [Hr Hpos]%Hclean by (eapply list_elem_of_lookup_2, Hri).
    destruct (Hvalues r Hr) as (tp' & td' & Hp' & Hd').
    rewrite Hp' in Htp. rewrite Hd' in Htd. simpl in Htp, Htd.
    injection Htp as ->. injection Htd as ->.
    unfold add_derived.
    cbn [parsed set_pickup set_dropoff tpep_dropoff_datetime tpep_pickup_datetime].
    destruct tp as [p|], td as [d|]; simpl; eauto.
    pose proof (Hrange r p d Hr Hpos Hp' Hd') as Hin.
    rewrite decide_True by lia. simpl. eauto. }
  rewrite H3. eauto.
Qed.

(** ** The join, row by row *)

Lemma merge_row_cases {P} zs (l : derived P) m :
  m ∈ merge_row zs l ->
  (m = Merged l None None None None ∧
   ∀ z, z ∈ zs -> zones.LocationID z ≠ PULocationID (base l)) ∨
  (∃ z, z ∈ zs ∧ zones.LocationID z = PULocationID (base l) ∧
        m = Merged l (Some (zones.LocationID z)) (zones.Borough z)
                     (zones.Zone z) (zones.service_zone z)).
Proof.
  unfold merge_row. destruct (matches zs l) as [|z0 ms] eqn:Hm.
  - intros ->%list_elem_of_singleton. left. split; [done|].
    intros z Hz Heq.
    assert (z ∈ matches zs l) as Hin by (by apply list_elem_of_filter).
    rewrite Hm in Hin. by apply elem_of_nil in Hin.
  - intros (z & -> & Hz)%list_elem_of_fmap. right.
    rewrite <- Hm in Hz. apply list_elem_of_filter in Hz as [Heq Hz]. eauto.
Qed.

(** X4. In every row of the loaded table the four zone columns are either
    all null, and then no row of the zone table has the trip's
    [PULocationID], or they are the columns of one zone row whose
    [LocationID] is the trip's [PULocationID]: a trip is never given the
    borough or zone name of another location. *)
Theorem zone_columns_of_the_pickup_zone taxi zs (w w' : W) out r :
  load_data RandomState permutation parse_datetime creso taxi zs w = (inr out, w') ->
  r ∈ out ->
  (LocationID r = None ∧ Borough r = None ∧ Zone r = None ∧ service_zone r = None ∧
   ∀ z, z ∈ zs -> zones.LocationID z ≠ PULocationID (base (left r))) ∨
  (∃ z, z ∈ zs ∧
        zones.LocationID z = PULocationID (base (left r)) ∧
        LocationID r = Some (PULocationID (base (left r))) ∧
        Borough r = zones.Borough z ∧
        Zone r = zones.Zone z ∧
        service_zone r = zones.service_zone z).
Proof.
  intros (s & d1 & d2 & d3 & _ & _ & _ & _ & ->)%load_data_inv Hr.
  apply list_elem_of_fmap in Hr as (m & -> & Hm).
  unfold merge_left in Hm. apply list_elem_of_bind in Hm as (l & Hm & _).
  apply merge_row_cases in Hm as [[-> Hno]|(z & Hz & Heq & ->)].
  - left. split_and!; done.
  - right. exists z. cbn. rewrite Heq. split_and!; done.
Qed.

Lemma merge_left_Forall2 {P} (df : list (derived P)) zs :
  NoDup (zones.LocationID <$> zs) ->
  Forall2 (λ l m, left m = l) df (merge_left df zs).
Proof.
  intros Hnd. unfold merge_left. induction df as [|l df IH]; [constructor|].
  rewrite bind_cons.
  pose proof (merge_row_length zs l Hnd) as Hlen.
  destruct (merge_row zs l) as [|m [|m' ms]] eqn:Hm; simpl in Hlen; try lia.
  simpl. constructor; [|exact IH].
  apply (merge_row_left zs). rewrite Hm. left.
Qed.

(** X5. With unique zone ids the loaded table is, row for row and in the
    order of the sample, the sample after cleaning: its i-th row carries
    the distance, fare, total amount and pickup location of the i-th
    cleaned sample row unchanged, the label of its payment code, and the
    timestamps its two fields were parsed to. *)
Theorem load_data_row_by_row taxi zs (w w' : W) out s :
  NoDup (zones.LocationID <$> zs) ->
  load_data' taxi zs w = (inr out, w') ->
  sample' 150000 (Some 42) taxi w = (inr s, w') ->
  Forall2 (λ r0 r,
             trip_distance (base (left r)) = trip_distance r0 ∧
             fare_amount (base (left r)) = fare_amount r0 ∧
             total_amount (base (left r)) = total_amount r0 ∧
             PULocationID (base (left r)) = PULocationID r0 ∧
             payment_type (base (left r)) = Series_map payment_map (payment_type r0) ∧
             to_datetime parse_datetime (tpep_pickup_datetime r0)
               = inr (tpep_pickup_datetime (base (left r))) ∧
             to_datetime parse_datetime (tpep_dropoff_datetime r0)
               = inr (tpep_dropoff_datetime (base (left r))))
          (clean s) out.
Proof.
  intros Hnd (s' & d1 & d2 & d3 & Hs & H1 & H2 & H3 & ->)%load_data_inv Hs'.
  rewrite Hs in Hs'. injection Hs' as <-.
  pose proof (derived_rows _ _ _ _ _ _ H1 H2 H3) as HF.
  apply Forall2_fmap_r.
  eapply Forall2_trans; [|exact HF|exact (merge_left_Forall2 _ zs Hnd)].
  simpl. intros r0 p m (tp & td & delta & Htp & Htd & _ & ->) Hm.
  cbn. rewrite Hm. cbn. split_and!; done.
Qed.

(** ** The cache *)

(** X6. Once a call through the cache has returned a table, every later
    call through the cache returns that same table without running
    anything, whatever it would have loaded: the state is left as it is
    and the data is never fetched again. *)
Theorem cache_data_hit (f g : M W (list enriched)) (w w1 : W) t :
  cache_data f w = (inr t, w1) ->
  cache_data g w1 = (inr t, w1).
Proof.
  unfold cache_data. intros Hf.
  assert (st_cache w1 = Some t) as Hc.
  { destruct (st_cache w) as [t0|] eqn:Hw.
    - injection Hf as <- <-. exact Hw.
    - destruct (f w) as [[e|t0] w2]; [discriminate|].
      injection Hf as <- <-. reflexivity. }
  by rewrite Hc.
Qed.

(** X7. A load that fails through the cache stores nothing and changes
    nothing: the cache was empty and stays empty, and the next call runs
    [load_data] afresh, with the result it gives on the data fetched
    then. *)
Theorem cache_data_error_not_stored taxi zs taxi2 zs2 (w w1 : W) e :
  cache_data (load_data' taxi zs) w = (inl e, w1) ->
  w1 = w ∧ st_cache w = None ∧
  (cache_data (load_data' taxi2 zs2) w1).1 = (load_data' taxi2 zs2 w).1.
Proof.
  unfold cache_data. destruct (st_cache w) as [t0|] eqn:Hw; [discriminate|].
  pose proof (load_data_world RandomState permutation parse_datetime creso taxi zs w) as Hw1.
  destruct (load_data' taxi zs w) as [[e'|t0] w2]; [|discriminate].
  simpl in Hw1. subst w2. intros [= <- <-]. split_and!; [done|done|].
  rewrite Hw. by destruct (load_data' taxi2 zs2 w) as [[e2|t2] w3].
Qed.

End More_pipeline.

(** ** Count tables *)

Section counting.
Context {K : Type} `{EqDecision K}.
Variable cmp : K -> K -> comparison.
Hypothesis laws : comparison_laws cmp.

Abbreviation key_lt := (key_lt cmp).

Lemma count_of_cons k k' n (l : list (K * nat)) :
  count_of k ((k', n) :: l) = ((if decide (k' = k) then n else 0) + count_of k l)%nat.
Proof.
  unfold count_of. rewrite filter_cons. simpl.
  destruct (decide (k' = k)); reflexivity.
Qed.

Lemma count_of_count_insert_by k0 k l :
  count_of k0 (count_insert_by cmp k l)
  = ((if decide (k = k0) then 1 else 0) + count_of k0 l)%nat.
Proof.
  induction l as [|[k' n] l IH]; simpl.
  - rewrite count_of_cons. unfold count_of. simpl. lia.
  - destruct (cmp k k') eqn:Hc.
    + apply (cmp_eq _ laws) in Hc as <-. rewrite !count_of_cons.
      destruct (decide (k = k0)); lia.
    + rewrite !count_of_cons. lia.
    + rewrite !count_of_cons, IH. lia.
Qed.

Lemma count_of_groupby_size_by {A} (key : A -> option K) (df : list A) k :
  count_of k (groupby_size_by cmp key df)
  = length (filter (λ r, key r = Some k) df).
Proof.
  induction df as [|r df IH]; [reflexivity|].
  rewrite filter_cons. simpl. destruct (key r) as [k'|] eqn:Hk.
  - rewrite count_of_count_insert_by, IH.
    destruct (decide (k' = k)) as [->|Hne].
    + by rewrite decide_True.
    + rewrite decide_False by congruence. done.
  - rewrite IH, decide_False by done. done.
Qed.

Lemma keys_count_insert_by k l k0 :
  k0 ∈ (count_insert_by cmp k l).*1 ↔ k0 = k ∨ k0 ∈ l.*1.
Proof.
  induction l as [|[k' n] l IH]; simpl.
  - rewrite list_elem_of_singleton. split; [by left|].
    by intros [?|?%elem_of_nil].
  - destruct (cmp k k') eqn:Hc; simpl.
    + apply (cmp_eq _ laws) in Hc as <-. rewrite !elem_of_cons. tauto.
    + rewrite !elem_of_cons. tauto.
    + rewrite !elem_of_cons, IH. tauto.
Qed.

Lemma cmp_irrefl k : cmp k k ≠ Lt.
Proof.
  intros H. pose proof (cmp_antisym _ laws k k) as Ha.
  rewrite H in Ha. discriminate Ha.
Qed.

Lemma count_insert_by_sorted k l :
  StronglySorted key_lt l -> StronglySorted key_lt (count_insert_by cmp k l).
Proof.
  induction l as [|[k' n] l IH]; simpl; intros Hs.
  - repeat constructor.
  - apply StronglySorted_cons in Hs as [Hall Hs].
    destruct (cmp k k') eqn:Hc.
    + constructor; [exact Hs|exact Hall].
    + constructor.
      * constructor; [exact Hs|exact Hall].
      * constructor; [exact Hc|].
        eapply Forall_impl; [exact Hall|].
        intros e He. unfold key_lt in *. simpl in *.
        eapply (cmp_trans _ laws); eauto.
    + constructor; [by apply IH|].
      apply Forall_forall. intros [k1 n1] He.
      assert (k1 ∈ (count_insert_by cmp k l).*1) as Hk1
        by (apply list_elem_of_fmap; by exists (k1, n1)).
      apply keys_count_insert_by in Hk1 as [->|Hk1].
      * unfold key_lt. simpl. rewrite (cmp_antisym _ laws), Hc. reflexivity.
      * apply list_elem_of_fmap in Hk1 as ([k2 n2] & Heq & Hin). simpl in Heq. subst k2.
        rewrite Forall_forall in Hall. apply (Hall _ Hin).
Qed.

Lemma groupby_size_by_sorted {A} (key : A -> option K) (df : list A) :
  StronglySorted key_lt (groupby_size_by cmp key df).
Proof.
  induction df as [|r df IH]; simpl; [constructor|].
  destruct (key r); [by apply count_insert_by_sorted|exact IH].
Qed.

Lemma sorted_keys_NoDup l : StronglySorted key_lt l -> NoDup l.*1.
Proof.
  induction 1 as [|[k n] l _ IH Hall]; simpl; constructor; [|exact IH].
  intros ([k' n'] & Heq & Hin)%list_elem_of_fmap. simpl in Heq. subst k'.
  rewrite Forall_forall in Hall. apply (cmp_irrefl k), (Hall _ Hin).
Qed.

Lemma groupby_size_by_NoDup {A} (key : A -> option K) (df : list A) :
  NoDup (groupby_size_by cmp key df).*1.
Proof. apply sorted_keys_NoDup, groupby_size_by_sorted. Qed.

Lemma groupby_size_by_keys {A} (key : A -> option K) (df : list A) k :
  k ∈ (groupby_size_by cmp key df).*1 ↔ ∃ r, r ∈ df ∧ key r = Some k.
Proof.
  induction df as [|r df IH]; simpl.
  - split; [by intros ?%elem_of_nil|by intros (? & ?%elem_of_nil & _)].
  - destruct (key r) as [k'|] eqn:Hk.
    + rewrite keys_count_insert_by, IH. split.
      * intros [->|(r' & Hr' & Hk')]; [exists r; split; [left|done]|].
        exists r'. split; [by right|done].
      * intros (r' & [->|Hr']%elem_of_cons & Hk'); [left; congruence|].
        right. eauto.
    + rewrite IH. split.
      * intros (r' & Hr' & Hk'). exists r'. split; [by right|done].
      * intros (r' & [->|Hr']%elem_of_cons & Hk'); [congruence|eauto].
Qed.

Lemma sum_counts_count_insert_by k l :
  sum_counts (count_insert_by cmp k l) = S (sum_counts l).
Proof.
  induction l as [|[k' n] l IH]; [reflexivity|].
  simpl. destruct (cmp k k'); [reflexivity|reflexivity|].
  change (sum_counts ((k', n) :: count_insert_by cmp k l))
    with (n + sum_counts (count_insert_by cmp k l))%nat.
  rewrite IH. change (sum_counts ((k', n) :: l)) with (n + sum_counts l)%nat. lia.
Qed.

Lemma sum_counts_groupby_size_by {A} (key : A -> option K) (df : list A) :
  sum_counts (groupby_size_by cmp key df) = length (filter (λ r, is_Some (key r)) df).
Proof.
  induction df as [|r df IH]; [reflexivity|].
  rewrite filter_cons. simpl. destruct (key r) as [k|] eqn:Hk.
  - rewrite decide_True by done. simpl.
    by rewrite sum_counts_count_insert_by, IH.
  - rewrite decide_False by (by intros []). exact IH.
Qed.
End counting.

Lemma count_of_absent {K} `{EqDecision K} (l : list (K * nat)) k :
  k ∉ l.*1 -> count_of k l = 0%nat.
Proof.
  induction l as [|[k' n'] l IH]; [reflexivity|].
  simpl. rewrite not_elem_of_cons. intros [Hne Hk].
  rewrite count_of_cons, decide_False, IH by done. reflexivity.
Qed.

(** A key that occurs once in a count table has the count of its line. *)
Lemma count_of_NoDup {K} `{EqDecision K} (l : list (K * nat)) k n :
  NoDup l.*1 -> (k, n) ∈ l -> count_of k l = n.
Proof.
  induction l as [|[k' n'] l IH]; [by intros _ ?%elem_of_nil|].
  simpl. rewrite NoDup_cons. intros [Hk Hnd] Hin. rewrite count_of_cons.
  apply elem_of_cons in Hin as [[= -> ->]|Hin].
  - rewrite decide_True, count_of_absent by done. lia.
  - assert (k' ≠ k) as Hne.
    { intros ->. apply Hk, list_elem_of_fmap. by exists (k, n). }
    rewrite decide_False, IH by done. reflexivity.
Qed.

Lemma count_of_Permutation {K} `{EqDecision K} (l1 l2 : list (K * nat)) k :
  l1 ≡ₚ l2 -> count_of k l1 = count_of k l2.
Proof. intros H. unfold count_of. by rewrite H. Qed.

(** ** The two comparison functions *)

Lemma string_compare_laws : comparison_laws String.compare.
Proof.
  split.
  - intros a b H. by apply OrderedTypeEx.String_as_OT.cmp_eq.
  - apply OrderedTypeEx.String_as_OT.cmp_antisym.
  - intros a b c H1 H2. apply OrderedTypeEx.String_as_OT.cmp_lt.
    eapply OrderedTypeEx.String_as_OT.lt_trans;
      apply OrderedTypeEx.String_as_OT.cmp_lt; eassumption.
Qed.

Lemma day_hour_compare_laws : comparison_laws day_hour_compare.
Proof.
  pose proof string_compare_laws as [Heq Hanti Htrans].
  split.
  - intros [d1 h1] [d2 h2]. unfold day_hour_compare. simpl.
    destruct (String.compare d1 d2) eqn:Hd; try discriminate.
    intros Hh%Z.compare_eq. apply Heq in Hd. by subst.
  - intros [d1 h1] [d2 h2]. unfold day_hour_compare. simpl.
    rewrite (Hanti d1 d2), (Z.compare_antisym h2 h1).
    by destruct (String.compare d2 d1).
  - intros [d1 h1] [d2 h2] [d3 h3]. unfold day_hour_compare. simpl.
    destruct (String.compare d1 d2) eqn:H12; try discriminate;
      destruct (String.compare d2 d3) eqn:H23; try discriminate.
    + apply Heq in H12, H23. subst.
      assert (String.compare d3 d3 = Eq) as ->
        by (by apply OrderedTypeEx.String_as_OT.cmp_eq).
      rewrite !Z.compare_lt_iff. lia.
    + apply Heq in H12. subst. by rewrite H23.
    + apply Heq in H23. subst. by rewrite H12.
    + by rewrite (Htrans _ _ _ H12 H23).
Qed.

Lemma groupby_size_by_string {A} (key : A -> option string) (df : list A) :
  groupby_size key df = groupby_size_by String.compare key df.
Proof.
  unfold groupby_size, groupby_size_by.
  induction df as [|r df IH]; [reflexivity|].
  simpl. rewrite IH. destruct (key r) as [k|]; [|reflexivity].
  generalize (foldr (λ r acc, match key r with
                              | Some k => count_insert_by String.compare k acc
                              | None => acc
                              end) [] df). intros l.
  induction l as [|[k' n] l IHl]; [reflexivity|].
  simpl. by rewrite IHl.
Qed.

Global Instance by_count_desc_transitive : Transitive by_count_desc.
Proof. intros a b c. unfold by_count_desc. lia. Qed.

Global Instance by_count_desc_total : Total by_count_desc.
Proof. intros a b. unfold by_count_desc. lia. Qed.

Lemma sort_values_desc_sorted l : StronglySorted by_count_desc (sort_values_desc l).
Proof. apply StronglySorted_merge_sort; apply _. Qed.

Lemma sort_values_desc_Permutation l : sort_values_desc l ≡ₚ l.
Proof. apply merge_sort_Permutation. Qed.

(** ** Counting in order of first appearance *)

Lemma count_of_count_add k0 k l :
  count_of k0 (count_add k l) = ((if decide (k = k0) then 1 else 0) + count_of k0 l)%nat.
Proof.
  induction l as [|[k' n] l IH]; simpl.
  - rewrite count_of_cons. unfold count_of. simpl. lia.
  - destruct (decide (k = k')) as [<-|Hne]; rewrite !count_of_cons.
    + destruct (decide (k = k0)); lia.
    + rewrite IH. lia.
Qed.

Lemma keys_count_add k l k0 :
  k0 ∈ (count_add k l).*1 ↔ k0 = k ∨ k0 ∈ l.*1.
Proof.
  induction l as [|[k' n] l IH]; simpl.
  - rewrite list_elem_of_singleton. split; [by left|].
    by intros [?|?%elem_of_nil].
  - destruct (decide (k = k')) as [<-|Hne]; simpl.
    + rewrite !elem_of_cons. tauto.
    + rewrite !elem_of_cons, IH. tauto.
Qed.

Lemma count_add_NoDup k l : NoDup l.*1 -> NoDup (count_add k l).*1.
Proof.
  induction l as [|[k' n] l IH]; simpl.
  - intros _. apply NoDup_singleton.
  - rewrite NoDup_cons. intros [Hk Hnd].
    destruct (decide (k = k')) as [<-|Hne]; simpl.
    + by apply NoDup_cons.
    + apply NoDup_cons. split; [|by apply IH].
      rewrite keys_count_add. intros [->|?]; done.
Qed.

Section first_appearance.
Context {A : Type} (key : A -> option string).

Abbreviation step := (λ acc r, match key r with
                               | Some k => count_add k acc
                               | None => acc
                               end).

Lemma foldl_count_of (df : list A) acc k :
  count_of k (foldl step acc df)
  = (count_of k acc + length (filter (λ r, key r = Some k) df))%nat.
Proof.
  revert acc. induction df as [|r df IH]; intros acc; [simpl; lia|].
  rewrite filter_cons. simpl. rewrite IH. destruct (key r) as [k'|] eqn:Hk.
  - rewrite count_of_count_add. destruct (decide (k' = k)) as [->|Hne].
    + rewrite decide_True by done. simpl. lia.
    + rewrite decide_False by congruence. lia.
  - rewrite decide_False by done. lia.
Qed.

Lemma foldl_NoDup (df : list A) acc :
  NoDup acc.*1 -> NoDup (foldl step acc df).*1.
Proof.
  revert acc. induction df as [|r df IH]; intros acc Hnd; [done|].
  simpl. apply IH. destruct (key r); [by apply count_add_NoDup|done].
Qed.

Lemma foldl_keys (df : list A) acc k :
  k ∈ (foldl step acc df).*1 ↔ k ∈ acc.*1 ∨ ∃ r, r ∈ df ∧ key r = Some k.
Proof.
  revert acc. induction df as [|r df IH]; intros acc; simpl.
  - split; [by left|]. by intros [?|(? & ?%elem_of_nil & _)].
  - rewrite IH. destruct (key r) as [k'|] eqn:Hk.
    + rewrite keys_count_add. split.
      * intros [[->|?]|(r' & Hr' & Hk')]; [right|by left|right].
        -- exists r. split; [left|done].
        -- exists r'. split; [by right|done].
      * intros [?|(r' & [->|Hr']%elem_of_cons & Hk')]; [left; by right| |].
        -- left. left. congruence.
        -- right. eauto.
    + split.
      * intros [?|(r' & Hr' & Hk')]; [by left|right].
        exists r'. split; [by right|done].
      * intros [?|(r' & [->|Hr']%elem_of_cons & Hk')]; [by left|congruence|].
        right. eauto.
Qed.

Lemma value_counts_count_of (df : list A) k :
  count_of k (value_counts key df) = length (filter (λ r, key r = Some k) df).
Proof.
  unfold value_counts.
  rewrite (count_of_Permutation _ _ _ (sort_values_desc_Permutation _)).
  by rewrite foldl_count_of.
Qed.

Lemma value_counts_NoDup (df : list A) : NoDup (value_counts key df).*1.
Proof.
  unfold value_counts. rewrite (sort_values_desc_Permutation _).
  apply foldl_NoDup. constructor.
Qed.

Lemma value_counts_keys (df : list A) k :
  k ∈ (value_counts key df).*1 ↔ ∃ r, r ∈ df ∧ key r = Some k.
Proof.
  unfold value_counts. rewrite (sort_values_desc_Permutation _), foldl_keys.
  split; [|by right]. by intros [?%elem_of_nil|?].
Qed.
End first_appearance.

(** ** [unique] *)

Lemma elem_of_unique_from {A} `{EqDecision A} (seen l : list A) x :
  x ∈ unique_from seen l ↔ x ∈ l ∧ x ∉ seen.
Proof.
  revert seen. induction l as [|y l IH]; intros seen; simpl.
  - split; [by intros ?%elem_of_nil|by intros [?%elem_of_nil _]].
  - destruct (decide (y ∈ seen)) as [Hy|Hy].
    + rewrite IH, elem_of_cons. split; [tauto|].
      intros [[->|?] ?]; tauto.
    + rewrite !elem_of_cons, IH, not_elem_of_cons. split.
      * intros [->|[? [? ?]]]; tauto.
      * intros [[->|?] ?]; [by left|].
        destruct (decide (x = y)); [by left|right; tauto].
Qed.

Lemma unique_from_NoDup {A} `{EqDecision A} (seen l : list A) :
  NoDup (unique_from seen l).
Proof.
  revert seen. induction l as [|y l IH]; intros seen; simpl; [constructor|].
  destruct (decide (y ∈ seen)); [apply IH|].
  apply NoDup_cons. split; [|apply IH].
  rewrite elem_of_unique_from, not_elem_of_cons. tauto.
Qed.

Lemma elem_of_unique {A} `{EqDecision A} (l : list A) x : x ∈ unique l ↔ x ∈ l.
Proof.
  unfold unique. rewrite elem_of_unique_from. split; [tauto|].
  intros ?. split; [done|apply not_elem_of_nil].
Qed.

Lemma unique_NoDup {A} `{EqDecision A} (l : list A) : NoDup (unique l).
Proof. apply unique_from_NoDup. Qed.

(** ** The charts, on any view *)

Lemma zone_counts_sublist fdf :
  zone_counts fdf `sublist_of` sort_values_desc (groupby_size Zone fdf).
Proof. apply sublist_take. Qed.

Lemma groupby_size_NoDup {A} (key : A -> option string) (df : list A) :
  NoDup (groupby_size key df).*1.
Proof.
  rewrite groupby_size_by_string.
  apply groupby_size_by_NoDup, string_compare_laws.
Qed.

(** X8. The zone chart has at most ten bars, in order of non-increasing
    trips, no zone twice, and it is a top ten: no zone left out of the
    chart has more trips than a zone shown. *)
Theorem zone_counts_top_ten (fdf : list enriched) :
  (length (zone_counts fdf) ≤ 10)%nat ∧
  StronglySorted by_count_desc (zone_counts fdf) ∧
  NoDup (zone_counts fdf).*1 ∧
  (∀ a b, a ∈ zone_counts fdf -> b ∈ groupby_size Zone fdf ->
          b ∉ zone_counts fdf -> (b.2 ≤ a.2)%nat).
Proof.
  pose proof (sort_values_desc_sorted (groupby_size Zone fdf)) as Hs.
  rewrite <- (take_drop 10) in Hs. split_and!.
  - unfold zone_counts. rewrite length_take. lia.
  - by apply StronglySorted_app_1_l in Hs.
  - assert (NoDup (sort_values_desc (groupby_size Zone fdf)).*1) as Hnd
      by (rewrite (sort_values_desc_Permutation _); apply groupby_size_NoDup).
    apply (sublist_NoDup _ _ Hnd), fmap_sublist, zone_counts_sublist.
  - intros a b Ha Hb Hnb.
    apply (StronglySorted_app_1_elem_of _ _ _ a b Hs); [exact Ha|].
    rewrite <- (sort_values_desc_Permutation _) in Hb.
    rewrite <- (take_drop 10 (sort_values_desc _)) in Hb.
    apply elem_of_app in Hb as [Hb|Hb]; [|exact Hb]. by destruct Hnb.
Qed.

(** X9. Each bar of the zone chart counts what it says: its number of
    trips is the number of rows of the view whose [Zone] is that name,
    and it is not zero. *)
Theorem zone_counts_exact (fdf : list enriched) z n :
  (z, n) ∈ zone_counts fdf ->
  n = length (filter (λ r, Zone r = Some z) fdf) ∧ (0 < n)%nat.
Proof.
  intros Hin.
  assert ((z, n) ∈ groupby_size Zone fdf) as Hg.
  { rewrite <- (sort_values_desc_Permutation _).
    eapply elem_of_sublist; [exact Hin|apply zone_counts_sublist]. }
  assert (n = length (filter (λ r, Zone r = Some z) fdf)) as Hn.
  { rewrite <- (count_of_NoDup _ z n (groupby_size_NoDup Zone fdf) Hg).
    rewrite groupby_size_by_string.
    apply (count_of_groupby_size_by _ string_compare_laws). }
  split; [exact Hn|].
  assert (z ∈ (groupby_size Zone fdf).*1) as Hz
    by (apply list_elem_of_fmap; by exists (z, n)).
  rewrite groupby_size_by_string in Hz.
  apply (groupby_size_by_keys _ string_compare_laws) in Hz as (r & Hr & Hk).
  rewrite Hn.
  assert (r ∈ filter (λ r, Zone r = Some z) fdf) as Hf
    by (by apply list_elem_of_filter).
  destruct (filter _ fdf); [by apply elem_of_nil in Hf|simpl; lia].
Qed.

(** X10. The payment chart shows every payment label that occurs in the
    view, each once, with the number of rows that carry it, most frequent
    first; rows without a label are behind no bar. *)
Theorem payment_counts_exact (fdf : list enriched) :
  StronglySorted by_count_desc (payment_counts fdf) ∧
  NoDup (payment_counts fdf).*1 ∧
  (∀ p, p ∈ (payment_counts fdf).*1 ↔
        ∃ r, r ∈ fdf ∧ payment_type (base (left r)) = Some p) ∧
  (∀ p n, (p, n) ∈ payment_counts fdf ->
          n = length (filter (λ r, payment_type (base (left r)) = Some p) fdf)).
Proof.
  unfold payment_counts. split_and!.
  - apply sort_values_desc_sorted.
  - rewrite (sort_values_desc_Permutation _). apply value_counts_NoDup.
  - intros p. rewrite (sort_values_desc_Permutation _). apply value_counts_keys.
  - intros p n Hin.
    rewrite <- (value_counts_count_of (λ r, payment_type (base (left r))) fdf p).
    rewrite <- (count_of_Permutation _ _ p (sort_values_desc_Permutation _)).
    symmetry. apply count_of_NoDup; [|exact Hin].
    rewrite (sort_values_desc_Permutation _). apply value_counts_NoDup.
Qed.

(** X11. The heat map has one cell for each pair of weekday and hour that
    occurs in the view, no pair twice, in the order of the day name and
    then of the hour, and each cell holds the number of rows of the view
    with that weekday and hour. *)
Theorem heatmap_data_exact (fdf : list enriched) :
  StronglySorted (key_lt day_hour_compare) (heatmap_data fdf) ∧
  NoDup (heatmap_data fdf).*1 ∧
  (∀ c, c ∈ (heatmap_data fdf).*1 ↔ ∃ r, r ∈ fdf ∧ day_hour_key r = Some c) ∧
  (∀ c n, (c, n) ∈ heatmap_data fdf ->
          n = length (filter (λ r, day_hour_key r = Some c) fdf)).
Proof.
  unfold heatmap_data. split_and!.
  - apply groupby_size_by_sorted, day_hour_compare_laws.
  - apply groupby_size_by_NoDup, day_hour_compare_laws.
  - intros c. apply groupby_size_by_keys, day_hour_compare_laws.
  - intros c n Hin.
    rewrite <- (count_of_groupby_size_by _ day_hour_compare_laws day_hour_key fdf c).
    symmetry. apply count_of_NoDup; [|exact Hin].
    apply groupby_size_by_NoDup, day_hour_compare_laws.
Qed.

(** X12. The distance histogram only ever gets rows of the view, and only
    rows whose distance is a finite positive number above 0.1 and at most
    30: never a NaN, never an infinite distance. *)
Theorem distance_view_finite (fdf : list enriched) r :
  r ∈ distance_view fdf ->
  r ∈ fdf ∧
  Float64.gt (trip_distance (base (left r))) tenth = true ∧
  Float64.le (trip_distance (base (left r))) (Float64.of_Z 30) = true ∧
  ∃ m e, trip_distance (base (left r)) = S754_finite false m e.
Proof.
  unfold distance_view. intros [Hb Hr]%list_elem_of_filter.
  apply andb_True in Hb as [Hgt Hle].
  apply Is_true_true in Hgt, Hle. split_and!; [done|done|done|].
  destruct (trip_distance (base (left r))) as [[]|[]| |[] m e];
    try discriminate Hgt; try discriminate Hle.
  eauto.
Qed.

(** ** Views of a loaded table *)

Lemma filter_ext_in {A} (P Q : A -> Prop) `{∀ x, Decision (P x)} `{∀ x, Decision (Q x)}
    (l : list A) :
  (∀ x, x ∈ l -> P x ↔ Q x) -> filter P l = filter Q l.
Proof.
  induction l as [|x l IH]; intros Hext; [reflexivity|].
  rewrite !filter_cons.
  assert (filter P l = filter Q l) as -> by (apply IH; intros y Hy; apply Hext; by right).
  destruct (decide (P x)) as [HP|HP], (decide (Q x)) as [HQ|HQ]; try reflexivity.
  - destruct HQ. apply Hext; [left|done].
  - destruct HP. apply Hext; [left|done].
Qed.

Lemma Series_map_payment_label c :
  Series_map payment_map c ∈ payment_labels ++ [None].
Proof.
  unfold Series_map, payment_map, payment_labels.
  destruct (decide (c = 1)) as [->|]; [set_solver|].
  destruct (decide (c = 2)) as [->|]; [set_solver|].
  destruct (decide (c = 3)) as [->|]; [set_solver|].
  destruct (decide (c = 4)) as [->|]; [set_solver|].
  rewrite !lookup_insert_ne, lookup_singleton_ne by done. set_solver.
Qed.

(** A row of a view was selected: it has a pickup time. *)
Lemma filtered_df_row creso sb df r :
  r ∈ filtered_df creso sb df ->
  r ∈ df ∧ row_selected creso sb r = true ∧
  ∃ t, tpep_pickup_datetime (base (left r)) = Some t.
Proof.
  unfold filtered_df. intros [Hsel Hr]%list_elem_of_filter.
  apply Is_true_true in Hsel. split_and!; [done|done|].
  unfold row_selected in Hsel.
  destruct (tpep_pickup_datetime (base (left r))) as [t|]; [eauto|].
  discriminate Hsel.
Qed.

Lemma day_hour_cells_elem d h :
  d ∈ day_names -> 0 ≤ h ≤ 23 -> (d, h) ∈ day_hour_cells.
Proof.
  intros Hd Hh. unfold day_hour_cells.
  apply list_elem_of_bind. exists d. split; [|exact Hd].
  apply list_elem_of_bind. exists h. split; [left|].
  apply elem_of_seqZ. lia.
Qed.

Section Dashboard_facts.
Context {rng : Type}.
Variable RandomState : Z -> rng.
Variable permutation : rng -> nat -> list nat * rng.
Variable parse_datetime : string -> option datetime.
Variable creso : reso.

Abbreviation W := (world rng (list enriched)).
Abbreviation load_data' := (load_data RandomState permutation parse_datetime creso).

(** What every row of a loaded table satisfies. *)
Lemma load_data_row taxi zs (w w' : W) df r :
  load_data' taxi zs w = (inr df, w') ->
  r ∈ df ->
  pickup_hour (left r) = dt.hour creso (tpep_pickup_datetime (base (left r))) ∧
  pickup_day_of_week (left r) = dt.day_name creso (tpep_pickup_datetime (base (left r))) ∧
  payment_type (base (left r)) ∈ payment_labels ++ [None].
Proof.
  intros (s & d1 & d2 & d3 & _ & _ & _ & H3 & ->)%load_data_inv Hr.
  apply list_elem_of_fmap in Hr as (m & -> & Hm).
  unfold merge_left in Hm. apply list_elem_of_bind in Hm as (l & Hm & Hl).
  apply traverse_inr_Forall2 in H3.
  apply list_elem_of_lookup in Hl as [i Hi].
  destruct (Forall2_lookup_r _ _ _ _ _ H3 Hi)
    as (p & _ & (delta & _ & ->)%add_derived_inr).
  apply merge_row_left in Hm. cbn. rewrite Hm. cbn.
  split_and!; [done|done|apply Series_map_payment_label].
Qed.

(** X13. As the page opens (every payment option selected, hours 0 to
    23, a date range that covers the pickup dates of the table) the view
    is the loaded table without the rows that have no pickup time, in the
    same order; a table where every row has a pickup time is shown
    whole. *)
Theorem default_view taxi zs (w w' : W) df lo hi :
  load_data' taxi zs w = (inr df, w') ->
  (∀ r d, r ∈ df -> dt.date creso (tpep_pickup_datetime (base (left r))) = Some d ->
          lo ≤ d ≤ hi) ->
  filtered_df creso (default_sidebar (lo, hi) df) df
    = filter (λ r, is_Some (tpep_pickup_datetime (base (left r)))) df ∧
  ((∀ r, r ∈ df -> is_Some (tpep_pickup_datetime (base (left r)))) ->
   filtered_df creso (default_sidebar (lo, hi) df) df = df).
Proof.
  intros Hload Hdates.
  assert (filtered_df creso (default_sidebar (lo, hi) df) df
          = filter (λ r, is_Some (tpep_pickup_datetime (base (left r)))) df) as Heq.
  { unfold filtered_df. apply filter_ext_in. intros r Hr.
    destruct (load_data_row _ _ _ _ _ _ Hload Hr) as (Hh & _ & _).
    specialize (Hdates r).
    unfold row_selected, default_sidebar. cbn [date_range hour_range payment_types fst snd].
    rewrite Hh.
    destruct (tpep_pickup_datetime (base (left r))) as [t|] eqn:Ht.
    - split; [done|]. intros _.
      specialize (Hdates _ Hr eq_refl).
      pose proof (hour_in_range creso t _ eq_refl) as Hrange.
      cbn [dt.date dt.hour fmap option_fmap option_map ge_null le_null].
      apply Is_true_true. rewrite !andb_true_iff. split_and!; try lia.
      apply bool_decide_eq_true. unfold payment_options.
      apply elem_of_unique, list_elem_of_fmap. by exists r.
    - split; [intros []|by intros []]. }
  split; [exact Heq|].
  intros Hall. rewrite Heq.
  clear -Hall. induction df as [|r df IH]; [reflexivity|].
  rewrite filter_cons, decide_True by (apply Hall; left).
  f_equal. apply IH. intros r' Hr'. apply Hall. by right.
Qed.

(** X14. When the null option of the payment multiselect is not selected,
    every row of the view carries one of the four labels: the rows whose
    payment code was not 1, 2, 3 or 4 are shown in no chart and counted
    in no metric. *)
Theorem view_without_null_option taxi zs (w w' : W) df sb r :
  load_data' taxi zs w = (inr df, w') ->
  None ∉ payment_types sb ->
  r ∈ filtered_df creso sb df ->
  payment_type (base (left r)) ∈ payment_labels.
Proof.
  intros Hload Hnone (Hr & Hsel & _)%filtered_df_row.
  destruct (load_data_row _ _ _ _ _ _ Hload Hr) as (_ & _ & Hp).
  apply elem_of_app in Hp as [Hp|Hp]; [exact Hp|].
  apply list_elem_of_singleton in Hp.
  unfold row_selected in Hsel. rewrite !andb_true_iff in Hsel.
  destruct Hsel as [_ Hisin]. unfold isin in Hisin.
  apply bool_decide_eq_true in Hisin. rewrite Hp in Hisin. by destruct Hnone.
Qed.

(** X15. On every view of a loaded table the heat map accounts for every
    row: its counts sum to the Total Trips metric; and it has at most
    7 x 24 = 168 cells, each a weekday name with an hour from 0 to 23. *)
Theorem heatmap_data_total taxi zs (w w' : W) df sb :
  load_data' taxi zs w = (inr df, w') ->
  sum_counts (heatmap_data (filtered_df creso sb df))
    = total_trips (filtered_df creso sb df) ∧
  (length (heatmap_data (filtered_df creso sb df)) ≤ 168)%nat ∧
  (∀ d h, (d, h) ∈ (heatmap_data (filtered_df creso sb df)).*1 ->
          d ∈ day_names ∧ 0 ≤ h ≤ 23).
Proof.
  intros Hload.
  assert (∀ r, r ∈ filtered_df creso sb df ->
               ∃ d h, day_hour_key r = Some (d, h) ∧ d ∈ day_names ∧ 0 ≤ h ≤ 23)
    as Hkey.
  { intros r (Hr & _ & t & Ht)%filtered_df_row.
    destruct (load_data_row _ _ _ _ _ _ Hload Hr) as (Hh & Hd & _).
    rewrite Ht in Hh, Hd. unfold day_hour_key. rewrite Hh, Hd.
    destruct (day_name_Some creso t) as (name & -> & Hname).
    eexists _, _. split; [reflexivity|]. split; [exact Hname|].
    by eapply hour_in_range. }
  assert (∀ d h, (d, h) ∈ (heatmap_data (filtered_df creso sb df)).*1 ->
                 d ∈ day_names ∧ 0 ≤ h ≤ 23) as Hcells.
  { intros d h Hin.
    apply (groupby_size_by_keys _ day_hour_compare_laws) in Hin as (r & Hr & Hk).
    destruct (Hkey r Hr) as (d' & h' & Hk' & Hd & Hh).
    rewrite Hk in Hk'. injection Hk' as <- <-. done. }
  split_and!; [| |exact Hcells].
  - unfold heatmap_data, total_trips.
    rewrite sum_counts_groupby_size_by.
    generalize Hkey. generalize (filtered_df creso sb df). intros l Hl.
    induction l as [|r l IH]; [reflexivity|].
    rewrite filter_cons, decide_True.
    + simpl. f_equal. apply IH. intros r' Hr'. apply Hl. by right.
    + destruct (Hl r) as (d & h & -> & _); [left|done].
  - rewrite <- (length_fmap fst).
    apply (submseteq_length _ day_hour_cells), NoDup_submseteq.
    + apply groupby_size_by_NoDup, day_hour_compare_laws.
    + intros [d h] Hin. destruct (Hcells d h Hin). by apply day_hour_cells_elem.
Qed.

(** X16. The payment multiselect of a loaded table offers each value of
    the payment column once, in the order they first appear: at most the
    four labels and a null, five options in all; and the payment chart of
    any view has at most four bars. *)
Theorem payment_options_of_loaded taxi zs (w w' : W) df sb :
  load_data' taxi zs w = (inr df, w') ->
  NoDup (payment_options df) ∧
  (∀ p, p ∈ payment_options df ↔ ∃ r, r ∈ df ∧ payment_type (base (left r)) = p) ∧
  (∀ p, p ∈ payment_options df -> p ∈ payment_labels ++ [None]) ∧
  (length (payment_options df) ≤ 5)%nat ∧
  (length (payment_counts (filtered_df creso sb df)) ≤ 4)%nat.
Proof.
  intros Hload.
  assert (∀ p, p ∈ payment_options df ↔ ∃ r, r ∈ df ∧ payment_type (base (left r)) = p)
    as Hopt.
  { intros p. unfold payment_options. rewrite elem_of_unique, list_elem_of_fmap.
    split; intros (r & ? & ?); exists r; done. }
  assert (∀ p, p ∈ payment_options df -> p ∈ payment_labels ++ [None]) as Hlab.
  { intros p (r & Hr & <-)%Hopt.
    by destruct (load_data_row _ _ _ _ _ _ Hload Hr) as (_ & _ & Hp). }
  split_and!; [apply unique_NoDup|exact Hopt|exact Hlab| |].
  - apply (submseteq_length _ (payment_labels ++ [None])), NoDup_submseteq;
      [apply unique_NoDup|exact Hlab].
  - rewrite <- (length_fmap fst).
    apply (submseteq_length _ ["Credit Card"; "Cash"; "No Charge"; "Dispute"]),
      NoDup_submseteq.
    + unfold payment_counts. rewrite (sort_values_desc_Permutation _).
      apply value_counts_NoDup.
    + intros p Hin. unfold payment_counts in Hin.
      rewrite (sort_values_desc_Permutation _) in Hin.
      apply value_counts_keys in Hin as (r & (Hr & _ & _)%filtered_df_row & Hp).
      destruct (load_data_row _ _ _ _ _ _ Hload Hr) as (_ & _ & Hl).
      rewrite Hp in Hl.
      apply elem_of_app in Hl as [Hl|Hl%list_elem_of_singleton]; [|discriminate Hl].
      change payment_labels
        with (Some <$> ["Credit Card"; "Cash"; "No Charge"; "Dispute"]) in Hl.
      apply list_elem_of_fmap in Hl as (q & [= ->] & Hq). exact Hq.
Qed.

End Dashboard_facts.

(** ** Instances of the further properties *)

Lemma toy_shuffles : shuffles toy.permutation.
Proof.
  intros g m. unfold toy.permutation. simpl.
  destruct (Nat.even g); [reflexivity|apply reverse_Permutation].
Qed.

Lemma toy_ride_timestamps r :
  r ∈ toy.frame toy.ride ->
  ∃ tp td, tpep_pickup_datetime r = TsValue tp ∧
           tpep_dropoff_datetime r = TsValue td.
Proof.
  intros ->%elem_of_replicate_inv. eexists _, _. split; reflexivity.
Qed.

Lemma toy_ride_in_range r p d :
  r ∈ toy.frame toy.ride -> positive r ->
  tpep_pickup_datetime r = TsValue (Some p) ->
  tpep_dropoff_datetime r = TsValue (Some d) ->
  int64_min < d - p ≤ int64_max.
Proof.
  intros ->%elem_of_replicate_inv _ [= <-] [= <-]. split; [reflexivity|discriminate].
Qed.

Lemma toy_load_ride :
  toy.load_data (toy.frame toy.ride) [toy.zone161] toy.w0
  = (inr (toy.frame toy.ride_out), toy.w0).
Proof.
  exact (toy_load_zone161 toy.ride toy.t0800 toy.t0817 toy.w0
           ride_positive eq_refl eq_refl eq_refl eq_refl).
Qed.

Lemma toy_cache_first_call :
  cache_data (toy.load_data (toy.frame toy.ride) [toy.zone161]) toy.w0
  = (inr (toy.frame toy.ride_out), toy.w_cached).
Proof.
  unfold cache_data.
  change (st_cache toy.w0) with (@None (list enriched)).
  cbv beta iota. rewrite toy_load_ride. reflexivity.
Qed.

Lemma load_data_short_frame_witness :
  (N.of_nat (length (@nil raw_trip)) < 150000)%N ∧
  toy.load_data [] [toy.zone161] toy.w0 = (Err ValueError, toy.w0).
Proof.
  assert (N.of_nat (length (@nil raw_trip)) < 150000)%N as Hshort by reflexivity.
  split; [exact Hshort|].
  exact (load_data_short_frame toy.RandomState toy.permutation toy.parse_datetime
           reso_us [] [toy.zone161] toy.w0 Hshort).
Defined.

Lemma sample_without_replacement_witness :
  shuffles toy.permutation ∧
  (2 ≤ N.of_nat (length [10; 20; 30]))%N ∧
  ∃ rows w',
    toy.sample 2 None [10; 20; 30] toy.w1 = (inr rows, w') ∧
    N.of_nat (length rows) = 2%N ∧
    rows ⊆+ [10; 20; 30].
Proof.
  assert (2 ≤ N.of_nat (length [10; 20; 30]))%N as Hn by (simpl; lia).
  split; [exact toy_shuffles|]. split; [exact Hn|].
  exact (sample_without_replacement toy.RandomState toy.permutation
           2 None [10; 20; 30] toy.w1 toy_shuffles Hn).
Defined.

Lemma load_data_succeeds_witness :
  shuffles toy.permutation ∧
  (150000 ≤ N.of_nat (length (toy.frame toy.ride)))%N ∧
  ∃ out, toy.load_data (toy.frame toy.ride) [toy.zone161] toy.w0 = (inr out, toy.w0).
Proof.
  assert (150000 ≤ N.of_nat (length (toy.frame toy.ride)))%N as Hn
    by (rewrite length_frame; reflexivity).
  split; [exact toy_shuffles|]. split; [exact Hn|].
  exact (load_data_succeeds toy.RandomState toy.permutation toy.parse_datetime
           reso_us (toy.frame toy.ride) [toy.zone161] toy.w0
           toy_shuffles Hn toy_ride_timestamps toy_ride_in_range).
Defined.

Lemma zone_columns_of_the_pickup_zone_witness :
  toy.load_data (toy.frame toy.ride) [toy.zone161] toy.w0
    = (inr (toy.frame toy.ride_out), toy.w0) ∧
  toy.ride_out ∈ toy.frame toy.ride_out ∧
  Zone toy.ride_out = Some "Midtown Center" ∧
  ((LocationID toy.ride_out = None ∧ Borough toy.ride_out = None ∧
    Zone toy.ride_out = None ∧ service_zone toy.ride_out = None ∧
    ∀ z, z ∈ [toy.zone161] ->
         zones.LocationID z ≠ PULocationID (base (left toy.ride_out))) ∨
   (∃ z, z ∈ [toy.zone161] ∧
         zones.LocationID z = PULocationID (base (left toy.ride_out)) ∧
         LocationID toy.ride_out = Some (PULocationID (base (left toy.ride_out))) ∧
         Borough toy.ride_out = zones.Borough z ∧
         Zone toy.ride_out = zones.Zone z ∧
         service_zone toy.ride_out = zones.service_zone z)).
Proof.
  split; [exact toy_load_ride|]. split; [apply elem_of_frame|].
  split; [reflexivity|].
  exact (zone_columns_of_the_pickup_zone _ _ _ _ _ _ _ _ _ _
           toy_load_ride (elem_of_frame toy.ride_out)).
Defined.

Lemma load_data_row_by_row_witness :
  NoDup (zones.LocationID <$> [toy.zone161]) ∧
  toy.load_data (toy.frame toy.ride) [toy.zone161] toy.w0
    = (inr (toy.frame toy.ride_out), toy.w0) ∧
  toy.sample 150000 (Some 42) (toy.frame toy.ride) toy.w0
    = (inr (toy.frame toy.ride), toy.w0) ∧
  length (clean (toy.frame toy.ride)) = length (toy.frame toy.ride_out).
Proof.
  assert (NoDup (zones.LocationID <$> [toy.zone161])) as Hnd
    by apply NoDup_singleton.
  pose proof (toy_sample_frame toy.ride toy.w0) as Hs.
  split; [exact Hnd|]. split; [exact toy_load_ride|]. split; [exact Hs|].
  exact (Forall2_length _ _ _
           (load_data_row_by_row _ _ _ _ _ _ _ _ _ _ Hnd toy_load_ride Hs)).
Defined.

Lemma cache_data_hit_witness :
  cache_data (toy.load_data (toy.frame toy.ride) [toy.zone161]) toy.w0
    = (inr (toy.frame toy.ride_out), toy.w_cached) ∧
  cache_data (toy.load_data (toy.frame toy.garbled) []) toy.w_cached
    = (inr (toy.frame toy.ride_out), toy.w_cached).
Proof.
  split; [exact toy_cache_first_call|].
  exact (cache_data_hit _ (toy.load_data (toy.frame toy.garbled) []) _ _ _
           toy_cache_first_call).
Defined.

Lemma cache_data_error_not_stored_witness :
  cache_data (toy.load_data [] []) toy.w0 = (inl ValueError, toy.w0) ∧
  (cache_data (toy.load_data (toy.frame toy.ride) [toy.zone161]) toy.w0).1
    = (toy.load_data (toy.frame toy.ride) [toy.zone161] toy.w0).1.
Proof.
  assert (cache_data (toy.load_data [] []) toy.w0 = (inl ValueError, toy.w0)) as Hfail
    by reflexivity.
  split; [exact Hfail|].
  exact (proj2 (proj2 (cache_data_error_not_stored toy.RandomState toy.permutation
                         toy.parse_datetime reso_us [] [] (toy.frame toy.ride)
                         [toy.zone161] toy.w0 toy.w0 ValueError Hfail))).
Defined.

Lemma zone_counts_exact_witness :
  ("Midtown Center", 2%nat) ∈ zone_counts toy.small_view ∧
  2%nat = length (filter (λ r, Zone r = Some "Midtown Center") toy.small_view).
Proof.
  assert (("Midtown Center", 2%nat) ∈ zone_counts toy.small_view) as Hin
    by (vm_compute; left).
  split; [exact Hin|].
  exact (proj1 (zone_counts_exact toy.small_view _ _ Hin)).
Defined.

Lemma distance_view_finite_witness :
  toy.ride_out ∈ distance_view toy.small_view ∧
  ∃ m e, trip_distance (base (left toy.ride_out)) = S754_finite false m e.
Proof.
  assert (toy.ride_out ∈ distance_view toy.small_view) as Hin
    by (apply list_elem_of_filter; split; [reflexivity|left]).
  split; [exact Hin|].
  exact (proj2 (proj2 (proj2 (distance_view_finite toy.small_view _ Hin)))).
Defined.

Lemma toy_ride_dates r d :
  r ∈ toy.frame toy.ride_out ->
  dt.date reso_us (tpep_pickup_datetime (base (left r))) = Some d ->
  days_from_civil 2024 1 15 ≤ d ≤ days_from_civil 2024 1 15.
Proof.
  intros ->%elem_of_replicate_inv Hd. vm_compute in Hd.
  injection Hd as <-. vm_compute. split; discriminate.
Qed.

Lemma toy_untimed_dates r d :
  r ∈ toy.frame toy.untimed_out ->
  dt.date reso_us (tpep_pickup_datetime (base (left r))) = Some d ->
  days_from_civil 2024 1 15 ≤ d ≤ days_from_civil 2024 1 15.
Proof. intros ->%elem_of_replicate_inv Hd. discriminate Hd. Qed.

Lemma filter_replicate_none {A} (P : A -> Prop) `{∀ x, Decision (P x)} n x :
  ¬ P x -> filter P (replicate n x) = [].
Proof.
  intros HP. induction n as [|n IH]; [reflexivity|].
  rewrite replicate_S, filter_cons, decide_False by exact HP. exact IH.
Qed.

Lemma default_view_witness :
  toy.load_data (toy.frame toy.ride) [toy.zone161] toy.w0
    = (inr (toy.frame toy.ride_out), toy.w0) ∧
  filtered_df reso_us
    (default_sidebar (days_from_civil 2024 1 15, days_from_civil 2024 1 15)
                     (toy.frame toy.ride_out))
    (toy.frame toy.ride_out)
  = filter (λ r, is_Some (tpep_pickup_datetime (base (left r))))
           (toy.frame toy.ride_out) ∧
  toy.load_data (toy.frame toy.untimed) [toy.zone161] toy.w0
    = (inr (toy.frame toy.untimed_out), toy.w0) ∧
  tpep_pickup_datetime (base (left toy.untimed_out)) = NaT ∧
  filtered_df reso_us
    (default_sidebar (days_from_civil 2024 1 15, days_from_civil 2024 1 15)
                     (toy.frame toy.untimed_out))
    (toy.frame toy.untimed_out)
  = filter (λ r, is_Some (tpep_pickup_datetime (base (left r))))
           (toy.frame toy.untimed_out) ∧
  filter (λ r : enriched, is_Some (tpep_pickup_datetime (base (left r))))
         (toy.frame toy.untimed_out) = [].
Proof.
  pose proof (toy_load_zone161 toy.untimed NaT toy.t0817 toy.w0
                untimed_positive eq_refl eq_refl eq_refl eq_refl) as Hl.
  split; [exact toy_load_ride|].
  split; [exact (proj1 (default_view _ _ _ _ _ _ _ _ _ _ _
                          toy_load_ride toy_ride_dates))|].
  split; [exact Hl|]. split; [reflexivity|].
  split; [exact (proj1 (default_view _ _ _ _ _ _ _ _ _ _ _ Hl toy_untimed_dates))|].
  unfold toy.frame. apply filter_replicate_none.
  intros [t Ht]. discriminate Ht.
Defined.

Lemma view_without_null_option_witness :
  toy.load_data (toy.frame toy.ride) [toy.zone161] toy.w0
    = (inr (toy.frame toy.ride_out), toy.w0) ∧
  (None ∉ payment_types toy.sidebar_card) ∧
  toy.ride_out ∈ filtered_df reso_us toy.sidebar_card (toy.frame toy.ride_out) ∧
  payment_type (base (left toy.ride_out)) ∈ payment_labels.
Proof.
  assert (None ∉ payment_types toy.sidebar_card) as Hnone.
  { intros Hin. apply list_elem_of_singleton in Hin. discriminate Hin. }
  assert (toy.ride_out ∈ filtered_df reso_us toy.sidebar_card (toy.frame toy.ride_out))
    as Hin.
  { unfold filtered_df, toy.frame.
    rewrite filter_replicate by reflexivity. apply (elem_of_frame toy.ride_out). }
  split; [exact toy_load_ride|]. split; [exact Hnone|]. split; [exact Hin|].
  exact (view_without_null_option _ _ _ _ _ _ _ _ _ _ _
           toy_load_ride Hnone Hin).
Defined.

Lemma heatmap_data_total_witness :
  toy.load_data (toy.frame toy.ride) [toy.zone161] toy.w0
    = (inr (toy.frame toy.ride_out), toy.w0) ∧
  sum_counts (heatmap_data (filtered_df reso_us toy.sidebar_card (toy.frame toy.ride_out)))
    = total_trips (filtered_df reso_us toy.sidebar_card (toy.frame toy.ride_out)).
Proof.
  split; [exact toy_load_ride|].
  exact (proj1 (heatmap_data_total _ _ _ _ _ _ _ _ _ toy.sidebar_card toy_load_ride)).
Defined.

Lemma payment_options_of_loaded_witness :
  toy.load_data (toy.frame toy.ride) [toy.zone161] toy.w0
    = (inr (toy.frame toy.ride_out), toy.w0) ∧
  NoDup (payment_options (toy.frame toy.ride_out)) ∧
  (length (payment_options (toy.frame toy.ride_out)) ≤ 5)%nat.
Proof.
  split; [exact toy_load_ride|].
  destruct (payment_options_of_loaded _ _ _ _ _ _ _ _ _ toy.sidebar_card toy_load_ride)
    as (Hnd & _ & _ & Hlen & _).
  split; [exact Hnd|exact Hlen].
Defined.
